(** * Atomic chess (ChessVar.py): a shallow embedding and its properties

    The Python class [ChessVar] is embedded as a record holding the three
    data members, and its methods as functions over that record.  Methods
    that only read [self] are functions [ChessVar -> ... -> result _];
    methods that assign to [self] live in the state-and-exception monad [M].
    Python exceptions ([IndexError], [ValueError]) are values of [result]. *)

From Stdlib Require Import ZArith List String Ascii Bool Lia.
Import ListNotations.

Open Scope string_scope.
Open Scope Z_scope.

(** ** The fragment of Python the program uses *)

Module Py.

Inductive exn : Type := IndexError | ValueError.

Inductive result (A : Type) : Type :=
| Ret (a : A)
| Raise (e : exn).
Arguments Ret {A} a.
Arguments Raise {A} e.

Definition bind {A B} (m : result A) (k : A -> result B) : result B :=
  match m with
  | Ret a => k a
  | Raise e => Raise e
  end.

(** [l[i]] on a list: negative indices count from the end, anything
    outside [-len, len) raises IndexError. *)
Definition norm_index (len i : Z) : option nat :=
  if (0 <=? i) && (i <? len) then Some (Z.to_nat i)
  else if (i <? 0) && (- len <=? i) then Some (Z.to_nat (len + i))
  else None.

Definition list_getitem {A} (l : list A) (i : Z) : result A :=
  match norm_index (Z.of_nat (List.length l)) i with
  | Some n =>
      match nth_error l n with
      | Some x => Ret x
      | None => Raise IndexError
      end
  | None => Raise IndexError
  end.

Fixpoint replace_nth {A} (n : nat) (l : list A) (v : A) : list A :=
  match l, n with
  | [], _ => []
  | _ :: t, O => v :: t
  | h :: t, S n' => h :: replace_nth n' t v
  end.

(** [l[i] = v] on a list. *)
Definition list_setitem {A} (l : list A) (i : Z) (v : A) : result (list A) :=
  match norm_index (Z.of_nat (List.length l)) i with
  | Some n => Ret (replace_nth n l v)
  | None => Raise IndexError
  end.

Fixpoint str_nth (s : string) (n : nat) : option ascii :=
  match s, n with
  | EmptyString, _ => None
  | String c _, O => Some c
  | String _ s', S n' => str_nth s' n'
  end.

(** [s[i]] on a str: a one-character str, or IndexError. *)
Definition str_getitem (s : string) (i : Z) : result string :=
  match norm_index (Z.of_nat (String.length s)) i with
  | Some n =>
      match str_nth s n with
      | Some c => Ret (String c EmptyString)
      | None => Raise IndexError
      end
  | None => Raise IndexError
  end.

(** [sub in s] on strs: substring test. *)
Fixpoint str_in (sub s : string) : bool :=
  String.prefix sub s ||
  match s with
  | EmptyString => false
  | String _ s' => str_in sub s'
  end.

(** [x in l] on a list of strs: membership by [==]. *)
Definition list_in (x : string) (l : list string) : bool :=
  existsb (String.eqb x) l.

(** [s.index(sub)]: position of the first occurrence, or ValueError. *)
Fixpoint str_index_from (pos : Z) (s sub : string) : result Z :=
  if String.prefix sub s then Ret pos
  else match s with
       | EmptyString => Raise ValueError
       | String _ s' => str_index_from (pos + 1) s' sub
       end.

Definition str_index (s sub : string) : result Z := str_index_from 0 s sub.

Definition digit_value (c : ascii) : option Z :=
  let n := Z.of_N (N_of_ascii c) in
  if (48 <=? n) && (n <=? 57) then Some (n - 48) else None.

(** [int(s)] for the strs the program passes to it, which are the
    one-character results of [s[1]].  Characters are the code points
    0..255 of [ascii]; among those, [int] accepts exactly '0'..'9' and
    raises ValueError on every other one. *)
Definition int (s : string) : result Z :=
  match s with
  | String c EmptyString =>
      match digit_value c with
      | Some v => Ret v
      | None => Raise ValueError
      end
  | _ => Raise ValueError
  end.

(** [range(a, b)] as the list of its elements. *)
Definition range (a b : Z) : list Z :=
  map (fun k => a + Z.of_nat k) (seq 0 (Z.to_nat (b - a))).

(** Truth value of what a method returns: [True], [False] or [None]. *)
Definition truthy (v : option bool) : bool :=
  match v with
  | Some true => true
  | _ => false
  end.

End Py.
Import Py.

Notation "x <- m ;; k" := (Py.bind m (fun x => k))
  (at level 61, m at next level, right associativity).

(** Statements inside a method body: [None] when control falls through
    to the next statement, [Some v] when the statement executed
    [return v]. *)
Definition stmt (R : Type) : Type := result (option R).

Definition and_then {R} (s1 s2 : stmt R) : stmt R :=
  r <- s1 ;;
  match r with
  | Some v => Ret (Some v)
  | None => s2
  end.

Notation "s1 ;;; s2" := (and_then s1 s2) (at level 62, right associativity).

(** [for i in l: body i] where [body] may [return]. *)
Fixpoint for_in {R} (l : list Z) (body : Z -> stmt R) : stmt R :=
  match l with
  | [] => Ret None
  | i :: l' => body i ;;; for_in l' body
  end.

(** A method body that reaches its end without [return] yields [None]. *)
Definition body_value (s : stmt (option bool)) : result (option bool) :=
  r <- s ;;
  match r with
  | Some v => Ret v
  | None => Ret None
  end.

(** ** The object *)

Definition Board : Type := list (list string).

Record ChessVar : Type := mkChessVar {
  _turn : string;
  _game_state : string;
  _board : Board
}.

(** [__init__] *)
Definition init : ChessVar :=
  {| _turn := "WHITE";
     _game_state := "UNFINISHED";
     _board := [["WR"; "WP"; "00"; "00"; "00"; "00"; "BP"; "BR"];
                ["WN"; "WP"; "00"; "00"; "00"; "00"; "BP"; "BN"];
                ["WI"; "WP"; "00"; "00"; "00"; "00"; "BP"; "BI"];
                ["WQ"; "WP"; "00"; "00"; "00"; "00"; "BP"; "BQ"];
                ["WK"; "WP"; "00"; "00"; "00"; "00"; "BP"; "BK"];
                ["WI"; "WP"; "00"; "00"; "00"; "00"; "BP"; "BI"];
                ["WN"; "WP"; "00"; "00"; "00"; "00"; "BP"; "BN"];
                ["WR"; "WP"; "00"; "00"; "00"; "00"; "BP"; "BR"]] |}.

Definition get_game_state (self : ChessVar) : string := _game_state self.

(** [b[r][c]] *)
Definition board_get (b : Board) (r c : Z) : result string :=
  row <- list_getitem b r ;;
  list_getitem row c.

(** [b[r][c] = v]: the row object [b[r]] is fetched, then updated in
    place; [b] keeps holding that row. *)
Definition board_set (b : Board) (r c : Z) (v : string) : result Board :=
  row <- list_getitem b r ;;
  row' <- list_setitem row c v ;;
  list_setitem b r row'.

(** ** Piece legality: methods that only read [self] *)

Definition is_empty (cell : string) : bool := (cell =? "00")%string.

Definition validate_pawn (self : ChessVar) (start_row start_col : Z)
    (landing_space : string) (end_row end_col : Z) : option bool :=
  if (start_col =? 1) && (start_row =? end_row) && (_turn self =? "WHITE")%string then
    if (start_col + 1 =? end_col) || (start_col + 2 =? end_col) then
      if is_empty landing_space then Some true else None
    else None
  else if (start_col =? 6) && (start_row =? end_row) && (_turn self =? "BLACK")%string then
    if (start_col - 1 =? end_col) || (start_col - 2 =? end_col) then
      if is_empty landing_space then Some true else None
    else None
  else if (start_row =? end_row) && (_turn self =? "WHITE")%string then
    if start_col + 1 =? end_col then
      if is_empty landing_space then Some true else None
    else None
  else if (start_row =? end_row) && (_turn self =? "BLACK")%string then
    if start_col - 1 =? end_col then
      if is_empty landing_space then Some true else None
    else None
  else if Z.abs (start_row - end_row) =? 1 then
    let black_capture :=
      if (start_col - 1 =? end_col) && (_turn self =? "BLACK")%string then
        if negb (is_empty landing_space) then Some true else None
      else None in
    if (start_col + 1 =? end_col) && (_turn self =? "WHITE")%string then
      if negb (is_empty landing_space) then Some true else black_capture
    else black_capture
  else Some false.

(** The body of [for i in range(a, b): if <cell i> != '00': return False]. *)
Definition blocked_at (cell : result string) : stmt (option bool) :=
  c <- cell ;;
  if negb (is_empty c) then Ret (Some (Some false)) else Ret None.

Definition validate_rook (self : ChessVar) (start_row start_col end_row end_col : Z)
    : result (option bool) :=
  body_value
    (if start_row =? end_row then
       for_in (range (start_col + 1) end_col)
         (fun i => blocked_at (board_get (_board self) start_row i)) ;;;
       Ret (Some (Some true))
     else if start_col =? end_col then
       for_in (range (start_row + 1) end_row)
         (fun i => blocked_at (board_get (_board self) i start_col)) ;;;
       Ret (Some (Some true))
     else Ret (Some (Some false))).

Definition validate_knight (start_row start_col end_row end_col : Z) : option bool :=
  if Z.abs (start_row - end_row) =? 1 then
    if Z.abs (start_col - end_col) =? 2 then Some true else None
  else if Z.abs (start_row - end_row) =? 2 then
    if Z.abs (start_col - end_col) =? 1 then Some true else None
  else Some false.

(** The four direction scans shared, statement for statement, by
    [validate_bishop] and the diagonal branch of [validate_queen]. *)
Definition diagonal_scan (self : ChessVar) (start_row start_col end_row end_col : Z)
    : stmt (option bool) :=
  let dist := Z.abs (start_row - end_row) in
  (if (end_row >? start_row) && (end_col >? start_col) then
     for_in (range 1 dist)
       (fun i => blocked_at (board_get (_board self) (start_row + i) (start_col + i)))
   else Ret None) ;;;
  (if (end_row >? start_row) && (end_col <? start_col) then
     for_in (range 1 dist)
       (fun i => blocked_at (board_get (_board self) (start_row + i) (start_col - i)))
   else Ret None) ;;;
  (if (end_row <? start_row) && (end_col >? start_col) then
     for_in (range 1 dist)
       (fun i => blocked_at (board_get (_board self) (start_row - i) (start_col + i)))
   else Ret None) ;;;
  (if (end_row <? start_row) && (end_col <? start_col) then
     for_in (range 1 dist)
       (fun i => blocked_at (board_get (_board self) (start_row - i) (start_col - i)))
   else Ret None) ;;;
  Ret (Some (Some true)).

Definition validate_bishop (self : ChessVar) (start_row start_col end_row end_col : Z)
    : result (option bool) :=
  body_value
    (if Z.abs (start_row - end_row) =? Z.abs (start_col - end_col) then
       diagonal_scan self start_row start_col end_row end_col
     else Ret (Some (Some false))).

Definition validate_queen (self : ChessVar) (start_row start_col end_row end_col : Z)
    : result (option bool) :=
  body_value
    (if Z.abs (start_row - end_row) =? Z.abs (start_col - end_col) then
       diagonal_scan self start_row start_col end_row end_col
     else if start_row =? end_row then
       for_in (range (start_col + 1) end_col)
         (fun i => blocked_at (board_get (_board self) start_row i)) ;;;
       Ret (Some (Some true))
     else if start_col =? end_col then
       for_in (range (start_row + 1) end_row)
         (fun i => blocked_at (board_get (_board self) i start_col)) ;;;
       Ret (Some (Some true))
     else Ret (Some (Some false))).

Definition validate_king (start_row start_col : Z) (landing_space : string)
    (end_row end_col : Z) : option bool :=
  if Z.abs (start_row - end_row) =? 1 then
    if (start_col =? end_col) || (Z.abs (start_col - end_col) =? 1) then
      if is_empty landing_space then Some true else None
    else None
  else if Z.abs (start_col - end_col) =? 1 then
    if (start_row =? end_row) || (Z.abs (start_row - end_row) =? 1) then
      if is_empty landing_space then Some true else None
    else None
  else Some false.

Definition validate_move (self : ChessVar) (moving_piece : string)
    (start_row start_col : Z) (landing_space : string) (end_row end_col : Z)
    : result (option bool) :=
  if is_empty moving_piece then Ret (Some false)
  else if (start_row =? end_row) && (start_col =? end_col) then Ret (Some false)
  else if (_turn self =? "WHITE")%string && str_in "B" moving_piece then Ret (Some false)
  else if (_turn self =? "WHITE")%string && str_in "W" landing_space then Ret (Some false)
  else if (_turn self =? "BLACK")%string && str_in "W" moving_piece then Ret (Some false)
  else if (_turn self =? "BLACK")%string && str_in "B" landing_space then Ret (Some false)
  else if str_in "P" moving_piece then
    Ret (validate_pawn self start_row start_col landing_space end_row end_col)
  else if str_in "R" moving_piece then
    validate_rook self start_row start_col end_row end_col
  else if str_in "N" moving_piece then
    Ret (validate_knight start_row start_col end_row end_col)
  else if str_in "I" moving_piece then
    validate_bishop self start_row start_col end_row end_col
  else if str_in "Q" moving_piece then
    validate_queen self start_row start_col end_row end_col
  else if str_in "K" moving_piece then
    Ret (validate_king start_row start_col landing_space end_row end_col)
  else Ret None.

(** ** Methods that assign to [self] *)

Definition M (A : Type) : Type := ChessVar -> ChessVar * result A.

Definition retM {A} (a : A) : M A := fun self => (self, Ret a).

Definition bindM {A B} (m : M A) (k : A -> M B) : M B :=
  fun self =>
    match m self with
    | (self', Ret a) => k a self'
    | (self', Raise e) => (self', Raise e)
    end.

Notation "x <~ m ;; k" := (bindM m (fun x => k))
  (at level 61, m at next level, right associativity).
Notation "m >> k" := (bindM m (fun _ => k))
  (at level 61, right associativity).

(** An expression that reads [self] and may raise. *)
Definition eval {A} (e : ChessVar -> result A) : M A := fun self => (self, e self).

Definition set_turn (v : string) : M unit :=
  fun self => ({| _turn := v; _game_state := _game_state self; _board := _board self |}, Ret tt).

Definition set_game_state (v : string) : M unit :=
  fun self => ({| _turn := _turn self; _game_state := v; _board := _board self |}, Ret tt).

(** Variables that denote a board hold a reference to a list object.
    The program creates one such object, in [__init__], and never copies
    it: [self._board], the local [test_board] of [atomic_landing] (bound by
    [test_board = self._board]) and the parameter [chessboard] of
    [check_king] all refer to it. *)
Inductive board_ref : Type := self_board.

Definition deref (self : ChessVar) (p : board_ref) : Board :=
  match p with
  | self_board => _board self
  end.

Definition ref_get (p : board_ref) (r c : Z) : M string :=
  eval (fun self => board_get (deref self p) r c).

Definition ref_set (p : board_ref) (r c : Z) (v : string) : M unit :=
  fun self =>
    match board_set (deref self p) r c v with
    | Ret b' =>
        match p with
        | self_board =>
            ({| _turn := _turn self; _game_state := _game_state self; _board := b' |}, Ret tt)
        end
    | Raise e => (self, Raise e)
    end.

(** [check_king]: the loop over the rows, then the verdict. *)
Definition kings_present (b : Board) : bool * bool :=
  fold_left
    (fun '(black_present, white_present) row =>
       ((if list_in "BK" row then true else black_present),
        (if list_in "WK" row then true else white_present)))
    b (false, false).

Definition check_king (chessboard : board_ref) : M bool :=
  fun self =>
    let '(black_present, white_present) := kings_present (deref self chessboard) in
    if negb white_present && negb black_present then retM false self
    else if black_present && white_present then retM true self
    else if black_present then (set_game_state "BLACK_WON" >> retM true) self
    else (set_game_state "WHITE_WON" >> retM true) self.

(** One statement of the explosion:
    [if <guard> and "P" not in b[r][c]: b[r][c] = '00'] *)
Definition clear_unless_pawn (guard : bool) (b : board_ref) (r c : Z) : M unit :=
  if guard then
    x <~ ref_get b r c ;;
    if negb (str_in "P" x) then ref_set b r c "00" else retM tt
  else retM tt.

(** The nine statements that clear the landing square and its
    neighbours; [atomic_landing] has them twice, on [test_board] (lines
    371-389) and on [self._board] (lines 394-412). *)
Definition explode (b : board_ref) (end_row end_col : Z) : M unit :=
  ref_set b end_row end_col "00" >>
  clear_unless_pawn (end_col >? 0) b end_row (end_col - 1) >>
  clear_unless_pawn (end_col <? 7) b end_row (end_col + 1) >>
  clear_unless_pawn (end_row >? 0) b (end_row - 1) end_col >>
  clear_unless_pawn ((end_col >? 0) && (end_row >? 0)) b (end_row - 1) (end_col - 1) >>
  clear_unless_pawn ((end_col <? 7) && (end_row >? 0)) b (end_row - 1) (end_col + 1) >>
  clear_unless_pawn (end_row <? 7) b (end_row + 1) end_col >>
  clear_unless_pawn ((end_col >? 0) && (end_row <? 7)) b (end_row + 1) (end_col - 1) >>
  clear_unless_pawn ((end_col <? 7) && (end_row <? 7)) b (end_row + 1) (end_col + 1).

(** Lines 370-390 of [atomic_landing]: the run on [test_board], up to
    and including [test_value = self.check_king(test_board)]. *)
Definition atomic_landing_test (end_row end_col : Z) : M bool :=
  let test_board := self_board in
  explode test_board end_row end_col >>
  check_king test_board.

(** Lines 394-414 of [atomic_landing]: the run on [self._board]. *)
Definition atomic_landing_real (end_row end_col : Z) : M bool :=
  explode self_board end_row end_col >>
  check_king self_board >>
  retM true.

Definition atomic_landing (end_row end_col : Z) : M bool :=
  test_value <~ atomic_landing_test end_row end_col ;;
  if Bool.eqb test_value false then retM false
  else atomic_landing_real end_row end_col.

Definition letters : string := "abcdefgh".

(** Lines 79-99 of [make_move]: what happens once both squares are
    decoded and [moving_piece] and [landing_space] are read. *)
Definition make_move_apply (moving_piece : string) (start_row start_col : Z)
    (landing_space : string) (end_row end_col : Z) : M bool :=
  validity <~ eval (fun self =>
                validate_move self moving_piece start_row start_col
                              landing_space end_row end_col) ;;
  if truthy validity then
    returned <~ (if negb (is_empty landing_space) then
                   atomic <~ atomic_landing end_row end_col ;;
                   if negb atomic then retM (Some false) else retM None
                 else
                   ref_set self_board end_row end_col moving_piece >>
                   retM None) ;;
    match returned with
    | Some v => retM v
    | None =>
        ref_set self_board start_row start_col "00" >>
        turn <~ eval (fun self => Ret (_turn self)) ;;
        (if (turn =? "WHITE")%string then set_turn "BLACK" else set_turn "WHITE") >>
        retM true
    end
  else retM false.

(** Lines 53-77 of [make_move] decode the two tokens; [or] evaluates
    [end_pos[0]] only when [start_pos[0]] is a letter of [letters]. *)
Definition make_move (start_pos end_pos : string) : M bool :=
  game_state <~ eval (fun self => Ret (_game_state self)) ;;
  if negb (game_state =? "UNFINISHED")%string then retM false
  else
    s0 <~ eval (fun _ => str_getitem start_pos 0) ;;
    bad_letter <~ (if negb (str_in s0 letters) then retM true
                   else e0 <~ eval (fun _ => str_getitem end_pos 0) ;;
                        retM (negb (str_in e0 letters))) ;;
    if bad_letter : bool then retM false
    else
      start_row <~ eval (fun _ => s0 <- str_getitem start_pos 0 ;; str_index letters s0) ;;
      start_col <~ eval (fun _ => s1 <- str_getitem start_pos 1 ;; n <- int s1 ;; Ret (n - 1)) ;;
      if (0 >? start_row) || (0 >? start_col) then retM false
      else if (7 <? start_row) || (7 <? start_col) then retM false
      else
        moving_piece <~ ref_get self_board start_row start_col ;;
        end_row <~ eval (fun _ => e0 <- str_getitem end_pos 0 ;; str_index letters e0) ;;
        end_col <~ eval (fun _ => e1 <- str_getitem end_pos 1 ;; n <- int e1 ;; Ret (n - 1)) ;;
        if (0 >? end_row) || (0 >? end_col) then retM false
        else if (7 <? end_row) || (7 <? end_col) then retM false
        else
          landing_space <~ ref_get self_board end_row end_col ;;
          make_move_apply moving_piece start_row start_col landing_space end_row end_col.

(** A sequence of [make_move] calls on one object; the results are
    listed in call order.  An exception ends the run. *)
Fixpoint play (moves : list (string * string)) (self : ChessVar)
    : ChessVar * result (list bool) :=
  match moves with
  | [] => (self, Ret [])
  | (s, e) :: rest =>
      match make_move s e self with
      | (self', Ret b) =>
          match play rest self' with
          | (self'', Ret bs) => (self'', Ret (b :: bs))
          | (self'', Raise x) => (self'', Raise x)
          end
      | (self', Raise x) => (self', Raise x)
      end
  end.

(** ** Boards of eight rows of eight cells *)

Definition wf_board (b : Board) : Prop :=
  List.length b = 8%nat /\ Forall (fun row => List.length row = 8%nat) b.

Definition on_board (r c : Z) : Prop := 0 <= r <= 7 /\ 0 <= c <= 7.

(** The cell at a square, as a total function. *)
Definition cell (b : Board) (r c : Z) : string :=
  nth (Z.to_nat c) (nth (Z.to_nat r) b []) "".

(** The board after [b[r][c] = v]. *)
Definition put (b : Board) (r c : Z) (v : string) : Board :=
  replace_nth (Z.to_nat r) b (replace_nth (Z.to_nat c) (nth (Z.to_nat r) b []) v).

Definition with_board (self : ChessVar) (b : Board) : ChessVar :=
  {| _turn := _turn self; _game_state := _game_state self; _board := b |}.

Definition with_state (self : ChessVar) (v : string) : ChessVar :=
  {| _turn := _turn self; _game_state := v; _board := _board self |}.

Definition with_turn (self : ChessVar) (v : string) : ChessVar :=
  {| _turn := v; _game_state := _game_state self; _board := _board self |}.

(** ** Vocabulary of the properties *)

(** The 3x3 neighbourhood of the landing square. *)
Definition near (end_row end_col r c : Z) : bool :=
  (Z.abs (r - end_row) <=? 1) && (Z.abs (c - end_col) <=? 1).

Definition has_king (b : Board) (k : string) : bool :=
  existsb (list_in k) b.

(** The board after one explosion statement (see [clear_unless_pawn]). *)
Definition clear_cell (guard : bool) (b : Board) (r c : Z) : Board :=
  if guard && negb (str_in "P" (cell b r c)) then put b r c "00" else b.

(** The board after the nine explosion statements (see [explode]). *)
Definition explode_board (b : Board) (end_row end_col : Z) : Board :=
  let b := put b end_row end_col "00" in
  let b := clear_cell (end_col >? 0) b end_row (end_col - 1) in
  let b := clear_cell (end_col <? 7) b end_row (end_col + 1) in
  let b := clear_cell (end_row >? 0) b (end_row - 1) end_col in
  let b := clear_cell ((end_col >? 0) && (end_row >? 0)) b (end_row - 1) (end_col - 1) in
  let b := clear_cell ((end_col <? 7) && (end_row >? 0)) b (end_row - 1) (end_col + 1) in
  let b := clear_cell (end_row <? 7) b (end_row + 1) end_col in
  let b := clear_cell ((end_col >? 0) && (end_row <? 7)) b (end_row + 1) (end_col - 1) in
  clear_cell ((end_col <? 7) && (end_row <? 7)) b (end_row + 1) (end_col + 1).

(** [b] is [b0] with the squares selected by [D] exploded around the
    landing square: the landing square itself and every selected cell
    without the letter P are '00', all other cells are as in [b0]. *)
Definition blasted (b0 : Board) (D : Z -> Z -> bool) (end_row end_col : Z)
    (b : Board) : Prop :=
  wf_board b /\
  forall r c, on_board r c ->
    cell b r c =
      if D r c && (((r =? end_row) && (c =? end_col)) || negb (str_in "P" (cell b0 r c)))
      then "00" else cell b0 r c.

(** A token whose first character is the [letters] entry of row [r] and
    whose second character is the digit of column [c] (digit label c+1);
    [make_move] ignores any further characters. *)
Definition names (tok : string) (r c : Z) : Prop :=
  exists a d rest,
    tok = String a (String d rest) /\
    str_index letters (String a EmptyString) = Ret r /\
    digit_value d = Some (c + 1) /\
    0 <= c <= 7.

(** The thirteen values of the board's cell alphabet. *)
Definition cell_alphabet : list string :=
  ["00"; "WP"; "WR"; "WN"; "WI"; "WQ"; "WK";
         "BP"; "BR"; "BN"; "BI"; "BQ"; "BK"].

Definition valid_cell (s : string) : Prop := In s cell_alphabet.

Definition valid_board (b : Board) : Prop :=
  wf_board b /\ forall r c, on_board r c -> valid_cell (cell b r c).

(** States a game can be in: [__init__], then any number of
    [make_move] calls, whatever their arguments and outcomes. *)
Inductive reachable : ChessVar -> Prop :=
| reach_init : reachable init
| reach_move (self : ChessVar) (start_pos end_pos : string) :
    reachable self -> reachable (fst (make_move start_pos end_pos self)).

(** What [check_king] returns on a board, and the game state it leaves. *)
Definition kings_verdict (b : Board) : bool :=
  has_king b "WK" || has_king b "BK".

Definition winner_state (b : Board) (old : string) : string :=
  match has_king b "BK", has_king b "WK" with
  | true, false => "BLACK_WON"
  | false, true => "WHITE_WON"
  | _, _ => old
  end.

Definition flip_turn (self : ChessVar) : ChessVar :=
  with_turn self (if (_turn self =? "WHITE")%string then "BLACK" else "WHITE").

(** What [make_move_apply] does when both squares are on an 8x8 board,
    with the explosion, the king count and the turn change written as
    functions of the board. *)
Definition move_outcome (self : ChessVar) (moving_piece : string)
    (start_row start_col : Z) (landing_space : string) (end_row end_col : Z)
    : ChessVar * result bool :=
  match validate_move self moving_piece start_row start_col
                      landing_space end_row end_col with
  | Raise x => (self, Raise x)
  | Ret validity =>
      if truthy validity then
        if negb (is_empty landing_space) then
          let b1 := explode_board (_board self) end_row end_col in
          if kings_verdict b1 then
            (flip_turn
               (with_state (with_board self (put b1 start_row start_col "00"))
                           (winner_state b1 (_game_state self))),
             Ret true)
          else (with_board self b1, Ret false)
        else
          (flip_turn
             (with_board self
                (put (put (_board self) end_row end_col moving_piece)
                     start_row start_col "00")),
           Ret true)
      else (self, Ret false)
  end.

(** A token with at least two characters whose second one is a decimal
    digit: on such tokens [start_pos[1]] and [int] do not raise. *)
Definition has_digit (tok : string) : Prop :=
  exists a d rest v, tok = String a (String d rest) /\ digit_value d = Some v.

(** A token that names no square of the board. *)
Definition off_board (tok : string) : Prop := forall r c, ~ names tok r c.

(** The three ways a [make_move] call can go on an 8x8 board: it returns
    False before touching anything (the game is over, or a token names
    no square), it raises while decoding a token that lacks a digit, or it
    decodes two squares of the board and goes on to [make_move_apply]. *)
Inductive move_case (s e : string) (self : ChessVar)
    : ChessVar * result bool -> Prop :=
| case_false :
    _game_state self <> "UNFINISHED" \/ off_board s \/ off_board e ->
    move_case s e self (self, Ret false)
| case_raise (x : exn) :
    ~ (has_digit s /\ has_digit e) -> move_case s e self (self, Raise x)
| case_apply (sr sc er ec : Z) :
    names s sr sc -> names e er ec -> _game_state self = "UNFINISHED" ->
    move_case s e self
      (move_outcome self (cell (_board self) sr sc) sr sc
                    (cell (_board self) er ec) er ec).

(** ** Games played from the starting position *)

(** The object after a sequence of calls on a fresh game. *)
Definition after (moves : list (string * string)) : ChessVar :=
  fst (play moves init).

(** Both kings walk next to e5; the white d-pawn can then take on e5. *)
Definition kings_meet_moves : list (string * string) :=
  [("e2", "e4"); ("e7", "e5"); ("d2", "d4"); ("e8", "e7"); ("e1", "e2");
   ("e7", "e6"); ("e2", "e3"); ("a7", "a6"); ("e3", "f4"); ("a6", "a5")].

Definition kings_meet : ChessVar := after kings_meet_moves.

(** The white knight from b1 reaches d5 and can take on e7, next to the
    black king only. *)
Definition knight_raid_moves : list (string * string) :=
  [("b1", "c3"); ("a7", "a6"); ("c3", "d5"); ("a6", "a5")].

Definition knight_raid : ChessVar := after knight_raid_moves.

(** A white pawn on a4 facing a black pawn on b5. *)
Definition pawn_duel : ChessVar := after [("a2", "a4"); ("b7", "b5")].

(** After one white move it is Black's turn with the a8 rook at home. *)
Definition black_to_move : ChessVar := after [("a2", "a3")].

(** The white knight stands on a3, in front of the a2 pawn. *)
Definition knight_on_a3 : ChessVar := after [("b1", "a3"); ("a7", "a6")].

(** The white a-pawn has walked to a8 (the b-pawn took on a7 first, and
    the blast cleared a8). *)
Definition pawn_on_a8_moves : list (string * string) :=
  [("b2", "b4"); ("g8", "h6"); ("b4", "b5"); ("h6", "g8"); ("b5", "b6");
   ("g8", "h6"); ("b6", "a7"); ("h6", "g8"); ("a2", "a4"); ("g8", "h6");
   ("a4", "a5"); ("h6", "g8"); ("a5", "a6"); ("g8", "h6"); ("a6", "a7");
   ("h6", "g8"); ("a7", "a8"); ("g8", "h6")].

Definition pawn_on_a8 : ChessVar := after pawn_on_a8_moves.

(** ** Vocabulary of the further properties *)

(** Every cell [g i], for [i] in [l], is '00'. *)
Definition all_empty (l : list Z) (g : Z -> string) : bool :=
  forallb (fun i => is_empty (g i)) l.

(** The side that moves after [turn]: what lines 92-95 of [make_move]
    assign. *)
Definition other_turn (turn : string) : string :=
  if (turn =? "WHITE")%string then "BLACK" else "WHITE".

(** A cell equal to [k] stands on some square of the board. *)
Definition king_on (b : Board) (k : string) : Prop :=
  exists r c, on_board r c /\ cell b r c = k.

(** How the game state and the kings on the board go together. *)
Definition state_matches_kings (self : ChessVar) : Prop :=
  (_game_state self = "UNFINISHED" /\
   has_king (_board self) "WK" = has_king (_board self) "BK") \/
  (_game_state self = "WHITE_WON" /\
   has_king (_board self) "WK" = true /\ has_king (_board self) "BK" = false) \/
  (_game_state self = "BLACK_WON" /\
   has_king (_board self) "WK" = false /\ has_king (_board self) "BK" = true).

(** Number of [true] entries in a list of results. *)
Definition successes (bs : list bool) : nat := List.length (filter (fun b => b) bs).

(** The forward column step of the side to move, and the column index
    its pawns start on. *)
Definition forward (turn : string) : Z :=
  if (turn =? "WHITE")%string then 1 else -1.

Definition home_col (turn : string) : Z :=
  if (turn =? "WHITE")%string then 1 else 6.

Section ListFacts.
Context {A : Type}.

Lemma norm_index_in (len i : Z) :
  0 <= i < len -> norm_index len i = Some (Z.to_nat i).
Proof.
  intros H. unfold norm_index.
  destruct (Z.leb_spec 0 i); [|lia].
  destruct (Z.ltb_spec i len); [|lia]. reflexivity.
Qed.

Lemma list_getitem_nth (l : list A) (i : Z) (d : A) :
  0 <= i < Z.of_nat (List.length l) ->
  list_getitem l i = Ret (nth (Z.to_nat i) l d).
Proof.
  intros H. unfold list_getitem. rewrite norm_index_in by assumption.
  rewrite (nth_error_nth' l d) by lia. reflexivity.
Qed.

Lemma list_setitem_replace (l : list A) (i : Z) (v : A) :
  0 <= i < Z.of_nat (List.length l) ->
  list_setitem l i v = Ret (replace_nth (Z.to_nat i) l v).
Proof.
  intros H. unfold list_setitem. rewrite norm_index_in by assumption. reflexivity.
Qed.

Lemma length_replace_nth (n : nat) (l : list A) (v : A) :
  List.length (replace_nth n l v) = List.length l.
Proof.
  revert n. induction l as [|h t IH]; intros [|n]; simpl; auto.
Qed.

Lemma nth_replace_nth (n m : nat) (l : list A) (v d : A) :
  (n < List.length l)%nat ->
  nth m (replace_nth n l v) d = if Nat.eqb m n then v else nth m l d.
Proof.
  revert n m. induction l as [|h t IH]; intros n m Hn; simpl in Hn; [lia|].
  destruct n as [|n], m as [|m]; simpl; auto.
  apply IH. lia.
Qed.

Lemma Forall_replace_nth (P : A -> Prop) (n : nat) (l : list A) (v : A) :
  Forall P l -> P v -> Forall P (replace_nth n l v).
Proof.
  intros Hl Hv. revert n.
  induction Hl as [|h t Hh Ht IH]; intros [|n]; simpl; auto.
Qed.
End ListFacts.

Lemma wf_row (b : Board) (r : Z) :
  wf_board b -> 0 <= r <= 7 -> List.length (nth (Z.to_nat r) b []) = 8%nat.
Proof.
  intros [Hlen Hrows] Hr.
  rewrite Forall_forall in Hrows. apply Hrows. apply nth_In. lia.
Qed.

Lemma board_get_cell (b : Board) (r c : Z) :
  wf_board b -> on_board r c -> board_get b r c = Ret (cell b r c).
Proof.
  intros Hwf [Hr Hc]. unfold board_get, cell.
  rewrite (list_getitem_nth b r []) by (destruct Hwf as [-> _]; lia).
  simpl. apply list_getitem_nth. rewrite wf_row by assumption. lia.
Qed.

Lemma board_set_put (b : Board) (r c : Z) (v : string) :
  wf_board b -> on_board r c -> board_set b r c v = Ret (put b r c v).
Proof.
  intros Hwf [Hr Hc]. unfold board_set, put.
  rewrite (list_getitem_nth b r []) by (destruct Hwf as [-> _]; lia).
  simpl. rewrite list_setitem_replace by (rewrite wf_row by assumption; lia).
  simpl. apply list_setitem_replace. destruct Hwf as [-> _]. lia.
Qed.

Lemma wf_put (b : Board) (r c : Z) (v : string) :
  wf_board b -> on_board r c -> wf_board (put b r c v).
Proof.
  intros Hwf [Hr Hc]. pose proof (wf_row b r Hwf Hr) as Hrow.
  destruct Hwf as [Hlen Hrows]. unfold put. split.
  - rewrite length_replace_nth. exact Hlen.
  - apply Forall_replace_nth; [exact Hrows|].
    rewrite length_replace_nth. exact Hrow.
Qed.

Lemma cell_put (b : Board) (r c r' c' : Z) (v : string) :
  wf_board b -> on_board r c -> on_board r' c' ->
  cell (put b r c v) r' c' = if (r' =? r) && (c' =? c) then v else cell b r' c'.
Proof.
  intros Hwf [Hr Hc] [Hr' Hc']. pose proof (wf_row b r Hwf Hr) as Hrow.
  unfold cell, put.
  rewrite (nth_replace_nth _ _ b) by (destruct Hwf as [-> _]; lia).
  destruct (Z.eqb_spec r' r) as [->|Hne].
  - rewrite Nat.eqb_refl. simpl.
    rewrite nth_replace_nth by lia.
    destruct (Z.eqb_spec c' c) as [->|Hnc].
    + rewrite Nat.eqb_refl. reflexivity.
    + destruct (Nat.eqb_spec (Z.to_nat c') (Z.to_nat c)); [lia|reflexivity].
  - destruct (Nat.eqb_spec (Z.to_nat r') (Z.to_nat r)); [lia|reflexivity].
Qed.

(** ** Stepping through the monad *)

Lemma bindM_ret {A B} (m : M A) (k : A -> M B) (self self' : ChessVar) (a : A) :
  m self = (self', Ret a) -> bindM m k self = k a self'.
Proof. intros H. unfold bindM. rewrite H. reflexivity. Qed.

Lemma with_board_same (self : ChessVar) : with_board self (_board self) = self.
Proof. destruct self; reflexivity. Qed.

Lemma ref_get_cell (self : ChessVar) (r c : Z) :
  wf_board (_board self) -> on_board r c ->
  ref_get self_board r c self = (self, Ret (cell (_board self) r c)).
Proof.
  intros Hwf Hon. unfold ref_get, eval. simpl.
  rewrite board_get_cell by assumption. reflexivity.
Qed.

Lemma ref_set_put (self : ChessVar) (r c : Z) (v : string) :
  wf_board (_board self) -> on_board r c ->
  ref_set self_board r c v self = (with_board self (put (_board self) r c v), Ret tt).
Proof.
  intros Hwf Hon. unfold ref_set. simpl.
  rewrite board_set_put by assumption. reflexivity.
Qed.

Lemma wf_clear_cell (guard : bool) (b : Board) (r c : Z) :
  wf_board b -> (guard = true -> on_board r c) -> wf_board (clear_cell guard b r c).
Proof.
  intros Hwf Hon. unfold clear_cell.
  destruct guard; simpl; [|assumption].
  destruct (str_in "P" (cell b r c)); simpl; [assumption|].
  apply wf_put; auto.
Qed.

Lemma clear_unless_pawn_eq (guard : bool) (self : ChessVar) (r c : Z) :
  wf_board (_board self) -> (guard = true -> on_board r c) ->
  clear_unless_pawn guard self_board r c self
  = (with_board self (clear_cell guard (_board self) r c), Ret tt).
Proof.
  intros Hwf Hon. unfold clear_unless_pawn, clear_cell.
  destruct guard; simpl.
  - specialize (Hon eq_refl).
    rewrite (bindM_ret _ _ _ _ _ (ref_get_cell self r c Hwf Hon)).
    destruct (str_in "P" (cell (_board self) r c)); simpl.
    + unfold retM. rewrite with_board_same. reflexivity.
    + apply ref_set_put; assumption.
  - unfold retM. rewrite with_board_same. reflexivity.
Qed.

Lemma with_board_twice (self : ChessVar) (b b' : Board) :
  with_board (with_board self b) b' = with_board self b'.
Proof. reflexivity. Qed.

Lemma clear_unless_pawn_step {B} (guard : bool) (self : ChessVar) (b : Board)
    (r c : Z) (k : unit -> M B) :
  wf_board b -> (guard = true -> on_board r c) ->
  bindM (clear_unless_pawn guard self_board r c) k (with_board self b)
  = k tt (with_board self (clear_cell guard b r c)).
Proof.
  intros Hwf Hon. apply bindM_ret.
  apply (clear_unless_pawn_eq guard (with_board self b) r c); assumption.
Qed.

(** Guards of the explosion statements put the neighbour on the board. *)
Ltac guard_on_board :=
  let Hg := fresh "Hg" in
  intros Hg; unfold on_board;
  repeat match goal with
         | H : _ && _ = true |- _ => apply andb_true_iff in H; destruct H
         end;
  repeat match goal with
         | H : (_ >? _) = true |- _ => apply Z.gtb_lt in H
         | H : (_ <? _) = true |- _ => apply Z.ltb_lt in H
         end;
  lia.

Ltac wf_explode :=
  repeat first
    [ assumption
    | apply wf_clear_cell
    | apply wf_put
    | guard_on_board
    | (unfold on_board; lia) ].

Lemma wf_explode_board (b : Board) (er ec : Z) :
  wf_board b -> on_board er ec -> wf_board (explode_board b er ec).
Proof.
  intros Hwf [Hr Hc]. unfold explode_board. cbv zeta. wf_explode.
Qed.

Lemma explode_eq (self : ChessVar) (er ec : Z) :
  wf_board (_board self) -> on_board er ec ->
  explode self_board er ec self
  = (with_board self (explode_board (_board self) er ec), Ret tt).
Proof.
  intros Hwf [Hr Hc]. unfold explode, explode_board. cbv zeta.
  erewrite bindM_ret by (apply ref_set_put; [assumption|split; assumption]).
  do 7 (rewrite clear_unless_pawn_step by wf_explode).
  match goal with
  | |- clear_unless_pawn ?g _ ?r ?c (with_board self ?b) = _ =>
      apply (clear_unless_pawn_eq g (with_board self b) r c); simpl; wf_explode
  end.
Qed.

(** ** What an explosion leaves on the board *)

Lemma blasted_ext (b0 b : Board) (D D' : Z -> Z -> bool) (er ec : Z) :
  (forall r c, on_board r c -> D r c = D' r c) ->
  blasted b0 D er ec b -> blasted b0 D' er ec b.
Proof.
  intros Hext [Hwf Hcells]. split; [assumption|].
  intros r c Hon. rewrite <- Hext by assumption. apply Hcells; assumption.
Qed.

Lemma blasted_start (b0 : Board) (er ec : Z) :
  wf_board b0 -> on_board er ec ->
  blasted b0 (fun r c => (r =? er) && (c =? ec)) er ec (put b0 er ec "00").
Proof.
  intros Hwf Hon. split; [apply wf_put; assumption|].
  intros r c Hrc. rewrite cell_put by assumption.
  destruct ((r =? er) && (c =? ec)); reflexivity.
Qed.

Lemma blasted_step (b0 b : Board) (D : Z -> Z -> bool) (er ec : Z)
    (guard : bool) (r0 c0 : Z) :
  blasted b0 D er ec b ->
  (guard = true ->
   on_board r0 c0 /\ D r0 c0 = false /\ (r0 =? er) && (c0 =? ec) = false) ->
  blasted b0 (fun r c => D r c || (guard && (r =? r0) && (c =? c0))) er ec
          (clear_cell guard b r0 c0).
Proof.
  intros [Hwf Hcells] Hg. unfold clear_cell. destruct guard; simpl.
  - destruct (Hg eq_refl) as (Hon & HD & Hctr).
    assert (Hsame : cell b r0 c0 = cell b0 r0 c0).
    { rewrite Hcells by assumption. rewrite HD. reflexivity. }
    rewrite Hsame.
    destruct (str_in "P" (cell b0 r0 c0)) eqn:HP; simpl.
    + split; [assumption|]. intros r c Hrc. rewrite Hcells by assumption.
      destruct ((r =? r0) && (c =? c0)) eqn:Heq; [|rewrite orb_false_r; reflexivity].
      apply andb_true_iff in Heq. destruct Heq as [Hr Hc].
      apply Z.eqb_eq in Hr, Hc. subst r c.
      rewrite HD, Hctr, HP. reflexivity.
    + split; [apply wf_put; assumption|]. intros r c Hrc.
      rewrite cell_put by assumption.
      destruct ((r =? r0) && (c =? c0)) eqn:Heq.
      * rewrite orb_true_r. apply andb_true_iff in Heq. destruct Heq as [Hr Hc].
        apply Z.eqb_eq in Hr, Hc. subst r c. rewrite HP, orb_true_r. reflexivity.
      * rewrite orb_false_r. apply Hcells; assumption.
  - split; [assumption|]. intros r c Hrc.
    rewrite orb_false_r. apply Hcells; assumption.
Qed.

(** Reading a boolean equation over integer comparisons as arithmetic. *)
Ltac bool_arith :=
  repeat match goal with
         | H : _ && _ = true |- _ => apply andb_true_iff in H; destruct H
         | H : _ || _ = true |- _ => apply orb_true_iff in H; destruct H
         | H : _ || _ = false |- _ => apply orb_false_iff in H; destruct H
         | H : (_ =? _) = true |- _ => apply Z.eqb_eq in H
         | H : (_ =? _) = false |- _ => apply Z.eqb_neq in H
         | H : (_ >? _) = true |- _ => apply Z.gtb_lt in H
         | H : (_ <? _) = true |- _ => apply Z.ltb_lt in H
         | H : (_ <=? _) = true |- _ => apply Z.leb_le in H
         | H : (_ <=? _) = false |- _ => apply Z.leb_gt in H
         | H : (_ <? _) = false |- _ => apply Z.ltb_ge in H
         end.

(** Decides a boolean combination of integer comparisons by cases on
    its atoms, discarding the cases that arithmetic rules out. *)
Ltac bool_lia :=
  rewrite ?Z.gtb_ltb;
  repeat match goal with
         | |- context [?x =? ?y] => destruct (Z.eqb_spec x y); try (exfalso; lia)
         | |- context [?x <? ?y] => destruct (Z.ltb_spec x y); try (exfalso; lia)
         | |- context [?x <=? ?y] => destruct (Z.leb_spec x y); try (exfalso; lia)
         end;
  try reflexivity.

Lemma blasted_explode_board (b : Board) (er ec : Z) :
  wf_board b -> on_board er ec ->
  blasted b (near er ec) er ec (explode_board b er ec).
Proof.
  intros Hwf Hon. unfold explode_board. cbv zeta.
  pose proof (blasted_start b er ec Hwf Hon) as H0.
  eapply blasted_ext; cycle 1.
  - repeat (apply blasted_step; [|intros Hg]); [exact H0|..];
      cbv beta; unfold on_board in *; bool_arith;
      (split; [lia|split; bool_lia]).
  - intros r c Hrc. cbv beta. unfold near, on_board in *. bool_lia.
Qed.

Lemma cell_explode_board (b : Board) (er ec r c : Z) :
  wf_board b -> on_board er ec -> on_board r c ->
  cell (explode_board b er ec) r c =
    if near er ec r c && (((r =? er) && (c =? ec)) || negb (str_in "P" (cell b r c)))
    then "00" else cell b r c.
Proof.
  intros Hwf Hon Hrc.
  destruct (blasted_explode_board b er ec Hwf Hon) as [_ H]. apply H; assumption.
Qed.

Lemma board_ext (b1 b2 : Board) :
  wf_board b1 -> wf_board b2 ->
  (forall r c, on_board r c -> cell b1 r c = cell b2 r c) -> b1 = b2.
Proof.
  intros Hwf1 Hwf2 Hcells.
  apply (nth_ext b1 b2 [] []); [destruct Hwf1 as [-> _], Hwf2 as [-> _]; reflexivity|].
  intros n Hn. assert (Hn8 : (n < 8)%nat) by (destruct Hwf1 as [<- _]; exact Hn).
  pose proof (wf_row b1 (Z.of_nat n) Hwf1 ltac:(lia)) as Hr1.
  pose proof (wf_row b2 (Z.of_nat n) Hwf2 ltac:(lia)) as Hr2.
  rewrite Nat2Z.id in Hr1, Hr2.
  apply (nth_ext _ _ "" ""); [congruence|].
  intros m Hm. rewrite Hr1 in Hm.
  specialize (Hcells (Z.of_nat n) (Z.of_nat m)). unfold cell in Hcells.
  rewrite !Nat2Z.id in Hcells. apply Hcells. unfold on_board. lia.
Qed.

(** The second run of the nine statements, on the already exploded
    board, changes nothing. *)
Lemma explode_board_idem (b : Board) (er ec : Z) :
  wf_board b -> on_board er ec ->
  explode_board (explode_board b er ec) er ec = explode_board b er ec.
Proof.
  intros Hwf Hon.
  pose proof (wf_explode_board b er ec Hwf Hon) as Hwf1.
  apply board_ext; [apply wf_explode_board; assumption|assumption|].
  intros r c Hrc. rewrite (cell_explode_board (explode_board b er ec)) by assumption.
  rewrite cell_explode_board by assumption.
  destruct (near er ec r c); [|reflexivity].
  destruct ((r =? er) && (c =? ec)); [reflexivity|]. simpl.
  destruct (str_in "P" (cell b r c)) eqn:HP; simpl; [rewrite HP|]; reflexivity.
Qed.

(** ** [check_king] and [atomic_landing] as functions of the board *)

Lemma kings_present_has_king (b : Board) :
  kings_present b = (has_king b "BK", has_king b "WK").
Proof.
  unfold kings_present, has_king.
  assert (H : forall acc_b acc_w,
             fold_left
               (fun '(black_present, white_present) row =>
                  ((if list_in "BK" row then true else black_present),
                   (if list_in "WK" row then true else white_present)))
               b (acc_b, acc_w)
             = (acc_b || existsb (list_in "BK") b, acc_w || existsb (list_in "WK") b)).
  { induction b as [|row rest IH]; intros acc_b acc_w; simpl.
    - rewrite !orb_false_r. reflexivity.
    - rewrite IH. destruct (list_in "BK" row), (list_in "WK" row), acc_b, acc_w;
        reflexivity. }
  apply H.
Qed.

Lemma check_king_eq (self : ChessVar) :
  check_king self_board self
  = (with_state self (winner_state (_board self) (_game_state self)),
     Ret (kings_verdict (_board self))).
Proof.
  unfold check_king, kings_verdict, winner_state. simpl deref.
  rewrite kings_present_has_king.
  destruct self as [t s b]. simpl.
  destruct (has_king b "BK"), (has_king b "WK"); reflexivity.
Qed.

Lemma winner_state_idem (b : Board) (old : string) :
  winner_state b (winner_state b old) = winner_state b old.
Proof.
  unfold winner_state. destruct (has_king b "BK"), (has_king b "WK"); reflexivity.
Qed.

Lemma winner_state_no_kings (b : Board) (old : string) :
  kings_verdict b = false -> winner_state b old = old.
Proof.
  unfold kings_verdict, winner_state.
  destruct (has_king b "BK"), (has_king b "WK"); simpl; intros H;
    try discriminate; reflexivity.
Qed.

Lemma atomic_landing_test_eq (self : ChessVar) (er ec : Z) :
  wf_board (_board self) -> on_board er ec ->
  atomic_landing_test er ec self
  = (with_state (with_board self (explode_board (_board self) er ec))
                (winner_state (explode_board (_board self) er ec) (_game_state self)),
     Ret (kings_verdict (explode_board (_board self) er ec))).
Proof.
  intros Hwf Hon. unfold atomic_landing_test.
  rewrite (bindM_ret _ _ _ _ _ (explode_eq self er ec Hwf Hon)).
  apply check_king_eq.
Qed.

Lemma atomic_landing_real_eq (self : ChessVar) (er ec : Z) :
  wf_board (_board self) -> on_board er ec ->
  atomic_landing_real er ec self
  = (with_state (with_board self (explode_board (_board self) er ec))
                (winner_state (explode_board (_board self) er ec) (_game_state self)),
     Ret true).
Proof.
  intros Hwf Hon. unfold atomic_landing_real.
  rewrite (bindM_ret _ _ _ _ _ (explode_eq self er ec Hwf Hon)).
  rewrite (bindM_ret _ _ _ _ _ (check_king_eq _)). reflexivity.
Qed.

Lemma atomic_landing_eq (self : ChessVar) (er ec : Z) :
  wf_board (_board self) -> on_board er ec ->
  atomic_landing er ec self
  = (with_state (with_board self (explode_board (_board self) er ec))
                (winner_state (explode_board (_board self) er ec) (_game_state self)),
     Ret (kings_verdict (explode_board (_board self) er ec))).
Proof.
  intros Hwf Hon. unfold atomic_landing.
  rewrite (bindM_ret _ _ _ _ _ (atomic_landing_test_eq self er ec Hwf Hon)).
  destruct (kings_verdict (explode_board (_board self) er ec)) eqn:Hv; simpl.
  - rewrite atomic_landing_real_eq
      by (simpl; first [apply wf_explode_board; assumption|assumption]).
    simpl. rewrite explode_board_idem by assumption.
    rewrite winner_state_idem. reflexivity.
  - reflexivity.
Qed.

(** ** [make_move] on decoded squares *)

Lemma turn_change_eq (self : ChessVar) :
  (turn <~ eval (fun self => Ret (_turn self)) ;;
   (if (turn =? "WHITE")%string then set_turn "BLACK" else set_turn "WHITE") >>
   retM true) self
  = (flip_turn self, Ret true).
Proof.
  unfold bindM, eval, flip_turn, retM.
  destruct (_turn self =? "WHITE")%string; reflexivity.
Qed.

Lemma make_move_apply_eq (self : ChessVar) (mp : string) (sr sc : Z)
    (ls : string) (er ec : Z) :
  wf_board (_board self) -> on_board sr sc -> on_board er ec ->
  make_move_apply mp sr sc ls er ec self = move_outcome self mp sr sc ls er ec.
Proof.
  intros Hwf Hs He. unfold make_move_apply, move_outcome.
  unfold bindM at 1. unfold eval at 1.
  destruct (validate_move self mp sr sc ls er ec) as [v|x]; [|reflexivity].
  destruct (truthy v); [|reflexivity].
  destruct (negb (is_empty ls)).
  - unfold bindM at 1. unfold bindM at 1.
    rewrite atomic_landing_eq by assumption. cbv zeta.
    destruct (kings_verdict (explode_board (_board self) er ec)) eqn:Hv.
    + change (negb true) with false. cbv iota. unfold retM at 1. cbv iota beta.
      erewrite bindM_ret
        by (apply ref_set_put; simpl; first [apply wf_explode_board; assumption|assumption]).
      apply turn_change_eq.
    + simpl. unfold retM. rewrite winner_state_no_kings by assumption.
      destruct self; reflexivity.
  - unfold bindM at 1. unfold bindM at 1.
    rewrite ref_set_put by assumption. unfold retM at 1. cbv iota beta.
    erewrite bindM_ret
      by (apply ref_set_put; simpl; first [apply wf_put; assumption|assumption]).
    apply turn_change_eq.
Qed.

Lemma str_getitem_0 (a : ascii) (s : string) :
  str_getitem (String a s) 0 = Ret (String a EmptyString).
Proof.
  unfold str_getitem. rewrite norm_index_in by (simpl String.length; lia).
  reflexivity.
Qed.

Lemma str_getitem_1 (a d : ascii) (s : string) :
  str_getitem (String a (String d s)) 1 = Ret (String d EmptyString).
Proof.
  unfold str_getitem. rewrite norm_index_in by (simpl String.length; lia).
  reflexivity.
Qed.

(** A character that passes [in letters] has an index 0..7 in it, and
    conversely [index] only succeeds on such a character. *)
Lemma letter_index (a : ascii) :
  (str_in (String a EmptyString) letters = true /\
   exists r, str_index letters (String a EmptyString) = Ret r /\ 0 <= r <= 7) \/
  (str_in (String a EmptyString) letters = false /\
   str_index letters (String a EmptyString) = Raise ValueError).
Proof.
  unfold letters, str_index. simpl.
  repeat match goal with
         | |- context [ascii_dec a ?c] =>
             destruct (ascii_dec a c); simpl;
             [left; split; [reflexivity|eexists; split; [reflexivity|lia]]|]
         end.
  right. split; reflexivity.
Qed.

Lemma names_on_board (tok : string) (r c : Z) : names tok r c -> on_board r c.
Proof.
  intros (a & d & rest & _ & Hidx & _ & Hc). split; [|assumption].
  destruct (letter_index a) as [[_ (r' & Hr' & Hrange)]|[_ Hraise]]; congruence.
Qed.

Lemma names_has_digit (tok : string) (r c : Z) : names tok r c -> has_digit tok.
Proof.
  intros (a & d & rest & Htok & _ & Hd & _). exists a, d, rest, (c + 1). auto.
Qed.

Lemma names_fun (tok : string) (r c r' c' : Z) :
  names tok r c -> names tok r' c' -> r = r' /\ c = c'.
Proof.
  intros (a & d & rest & Htok & Hidx & Hd & _) (a' & d' & rest' & Htok' & Hidx' & Hd' & _).
  rewrite Htok in Htok'. injection Htok' as <- <- <-.
  rewrite Hidx in Hidx'. rewrite Hd in Hd'.
  injection Hidx' as <-. injection Hd' as Hc. split; [reflexivity|lia].
Qed.

Ltac reduce := cbv beta iota; cbn [negb].

Lemma off_board_letter (a : ascii) (rest : string) :
  str_index letters (String a EmptyString) = Raise ValueError ->
  off_board (String a rest).
Proof.
  intros Hraise r c (a' & d & rest' & Htok & Hidx & _).
  injection Htok as <- _. congruence.
Qed.

Lemma off_board_digit (a d : ascii) (rest : string) (v : Z) :
  digit_value d = Some v -> ~ 0 <= v - 1 <= 7 ->
  off_board (String a (String d rest)).
Proof.
  intros Hd Hv r c (a' & d' & rest' & Htok & _ & Hd' & Hc).
  injection Htok as <- <- <-. rewrite Hd in Hd'. injection Hd' as ->. lia.
Qed.

Lemma make_move_cases (s e : string) (self : ChessVar) :
  wf_board (_board self) -> move_case s e self (make_move s e self).
Proof.
  intros Hwf.
  unfold make_move, ref_get, bindM, eval, retM, Py.bind, int. reduce.
  destruct (_game_state self =? "UNFINISHED")%string eqn:Hst; reduce.
  2:{ apply case_false. left. apply String.eqb_neq. assumption. }
  apply String.eqb_eq in Hst.
  destruct s as [|a s'].
  { apply case_raise. intros [(a & d & rest & v & H & _) _]. discriminate. }
  rewrite !str_getitem_0. reduce.
  destruct (letter_index a) as [[Hin (sr & Hidx & Hsr)]|[Hin Hno]]; rewrite Hin; reduce.
  2:{ apply case_false. right; left. apply off_board_letter. assumption. }
  destruct e as [|a2 e'].
  { apply case_raise. intros [_ (a' & d & rest & v & H & _)]. discriminate. }
  rewrite !str_getitem_0. reduce.
  destruct (letter_index a2) as [[Hin2 (er & Hidx2 & Her)]|[Hin2 Hno2]]; rewrite Hin2; reduce.
  2:{ apply case_false. right; right. apply off_board_letter. assumption. }
  rewrite Hidx. reduce.
  destruct s' as [|d s''].
  { apply case_raise. intros [(a' & d & rest & v & H & _) _]. discriminate. }
  rewrite str_getitem_1. reduce.
  destruct (digit_value d) as [v|] eqn:Hd; reduce.
  2:{ apply case_raise.
      intros [(a' & d' & rest & v & H & Hd') _]. injection H as <- <- <-. congruence. }
  destruct ((0 >? sr) || (0 >? v - 1)) eqn:Hlo; reduce.
  { apply case_false. right; left. apply (off_board_digit _ _ _ v Hd).
    rewrite !Z.gtb_ltb in Hlo. bool_arith; lia. }
  destruct ((7 <? sr) || (7 <? v - 1)) eqn:Hhi; reduce.
  { apply case_false. right; left. apply (off_board_digit _ _ _ v Hd).
    bool_arith; lia. }
  assert (Hs : on_board sr (v - 1)).
  { rewrite !Z.gtb_ltb in Hlo. unfold on_board. bool_arith. lia. }
  cbn [deref]. rewrite (board_get_cell _ sr (v - 1)) by assumption. reduce.
  rewrite Hidx2. reduce.
  destruct e' as [|d2 e''].
  { apply case_raise. intros [_ (a' & d' & rest & v' & H & _)]. discriminate. }
  rewrite str_getitem_1. reduce.
  destruct (digit_value d2) as [v2|] eqn:Hd2; reduce.
  2:{ apply case_raise.
      intros [_ (a' & d' & rest & v' & H & Hd')]. injection H as <- <- <-. congruence. }
  destruct ((0 >? er) || (0 >? v2 - 1)) eqn:Hlo2; reduce.
  { apply case_false. right; right. apply (off_board_digit _ _ _ v2 Hd2).
    rewrite !Z.gtb_ltb in Hlo2. bool_arith; lia. }
  destruct ((7 <? er) || (7 <? v2 - 1)) eqn:Hhi2; reduce.
  { apply case_false. right; right. apply (off_board_digit _ _ _ v2 Hd2).
    bool_arith; lia. }
  assert (He : on_board er (v2 - 1)).
  { rewrite !Z.gtb_ltb in Hlo2. unfold on_board. bool_arith. lia. }
  rewrite (board_get_cell _ er (v2 - 1)) by assumption. reduce.
  rewrite make_move_apply_eq by assumption.
  apply case_apply; [| |assumption].
  - exists a, d, s''. replace (v - 1 + 1) with v by lia.
    destruct Hs. auto.
  - exists a2, d2, e''. replace (v2 - 1 + 1) with v2 by lia.
    destruct He. auto.
Qed.

(** On two tokens that name squares, in a game that is not over,
    [make_move] is [move_outcome] at those squares. *)
Lemma make_move_named (s e : string) (self : ChessVar) (sr sc er ec : Z) :
  wf_board (_board self) -> _game_state self = "UNFINISHED" ->
  names s sr sc -> names e er ec ->
  make_move s e self
  = move_outcome self (cell (_board self) sr sc) sr sc
                 (cell (_board self) er ec) er ec.
Proof.
  intros Hwf Hst Hs He.
  destruct (make_move_cases s e self Hwf) as [Hbad|x Hraise|sr' sc' er' ec' Hs' He' _].
  - exfalso. destruct Hbad as [Hfin|[Hoff|Hoff]].
    + contradiction.
    + apply (Hoff sr sc Hs).
    + apply (Hoff er ec He).
  - exfalso. apply Hraise. split; eapply names_has_digit; eassumption.
  - destruct (names_fun _ _ _ _ _ Hs Hs') as [<- <-].
    destruct (names_fun _ _ _ _ _ He He') as [<- <-]. reflexivity.
Qed.

(** ** The legality verdict for the pieces the properties single out *)

Lemma validate_move_white_pawn (self : ChessVar) (sr sc : Z) (ls : string) (er ec : Z) :
  validate_move self "WP" sr sc ls er ec
  = Ret (if (sr =? er) && (sc =? ec) then Some false
         else if (_turn self =? "WHITE")%string && str_in "W" ls then Some false
         else if (_turn self =? "BLACK")%string then Some false
         else validate_pawn self sr sc ls er ec).
Proof.
  unfold validate_move.
  change (is_empty "WP") with false. change (str_in "B" "WP") with false.
  change (str_in "W" "WP") with true. change (str_in "P" "WP") with true.
  cbv iota. rewrite !andb_false_r, !andb_true_r.
  destruct ((sr =? er) && (sc =? ec)); [reflexivity|].
  destruct ((_turn self =? "WHITE")%string && str_in "W" ls); [reflexivity|].
  destruct (_turn self =? "BLACK")%string; [reflexivity|].
  destruct ((_turn self =? "BLACK")%string && str_in "B" ls); reflexivity.
Qed.

Lemma validate_move_black_pawn (self : ChessVar) (sr sc : Z) (ls : string) (er ec : Z) :
  validate_move self "BP" sr sc ls er ec
  = Ret (if (sr =? er) && (sc =? ec) then Some false
         else if (_turn self =? "WHITE")%string then Some false
         else if (_turn self =? "BLACK")%string && str_in "B" ls then Some false
         else validate_pawn self sr sc ls er ec).
Proof.
  unfold validate_move.
  change (is_empty "BP") with false. change (str_in "B" "BP") with true.
  change (str_in "W" "BP") with false. change (str_in "P" "BP") with true.
  cbv iota. rewrite !andb_false_r, !andb_true_r.
  destruct ((sr =? er) && (sc =? ec)); [reflexivity|].
  destruct (_turn self =? "WHITE")%string; [reflexivity|]. cbn [andb].
  destruct ((_turn self =? "BLACK")%string && str_in "B" ls); reflexivity.
Qed.

(** A king is never given a truthy verdict onto an occupied square. *)
Lemma validate_king_occupied (sr sc : Z) (ls : string) (er ec : Z) :
  is_empty ls = false -> truthy (validate_king sr sc ls er ec) = false.
Proof.
  intros Hls. unfold validate_king. rewrite Hls.
  repeat match goal with
         | |- context [if ?c then _ else _] => destruct c
         end; reflexivity.
Qed.

Lemma validate_move_king (self : ChessVar) (mp : string) (sr sc : Z)
    (ls : string) (er ec : Z) :
  mp = "WK" \/ mp = "BK" -> is_empty ls = false ->
  exists v, validate_move self mp sr sc ls er ec = Ret v /\ truthy v = false.
Proof.
  intros Hmp Hls. unfold validate_move.
  assert (Hk := validate_king_occupied sr sc ls er ec Hls).
  destruct Hmp as [-> | ->].
  - change (is_empty "WK") with false. change (str_in "B" "WK") with false.
    change (str_in "W" "WK") with true. change (str_in "P" "WK") with false.
    change (str_in "R" "WK") with false. change (str_in "N" "WK") with false.
    change (str_in "I" "WK") with false. change (str_in "Q" "WK") with false.
    change (str_in "K" "WK") with true. cbv iota.
    repeat match goal with
           | |- context [if ?c then Ret (Some false) else _] =>
               destruct c; [eexists; split; reflexivity|]
           end.
    eexists; split; [reflexivity|assumption].
  - change (is_empty "BK") with false. change (str_in "B" "BK") with true.
    change (str_in "W" "BK") with false. change (str_in "P" "BK") with false.
    change (str_in "R" "BK") with false. change (str_in "N" "BK") with false.
    change (str_in "I" "BK") with false. change (str_in "Q" "BK") with false.
    change (str_in "K" "BK") with true. cbv iota.
    repeat match goal with
           | |- context [if ?c then Ret (Some false) else _] =>
               destruct c; [eexists; split; reflexivity|]
           end.
    eexists; split; [reflexivity|assumption].
Qed.

Lemma is_empty_false (s : string) : s <> "00" -> is_empty s = false.
Proof. intros H. unfold is_empty. apply String.eqb_neq. assumption. Qed.

(** ** Boards stay 8x8 *)

Lemma wf_init : wf_board (_board init).
Proof. split; [reflexivity|]. simpl. repeat constructor. Qed.

Lemma move_outcome_wf (self : ChessVar) (mp : string) (sr sc : Z)
    (ls : string) (er ec : Z) :
  wf_board (_board self) -> on_board sr sc -> on_board er ec ->
  wf_board (_board (fst (move_outcome self mp sr sc ls er ec))).
Proof.
  intros Hwf Hs He. unfold move_outcome.
  destruct (validate_move self mp sr sc ls er ec) as [v|x]; [|assumption].
  destruct (truthy v); [|assumption].
  destruct (negb (is_empty ls)); cbv zeta.
  - destruct (kings_verdict (explode_board (_board self) er ec)); simpl.
    + apply wf_put; [apply wf_explode_board|]; assumption.
    + apply wf_explode_board; assumption.
  - simpl. apply wf_put; [apply wf_put|]; assumption.
Qed.

Lemma make_move_wf (s e : string) (self : ChessVar) :
  wf_board (_board self) -> wf_board (_board (fst (make_move s e self))).
Proof.
  intros Hwf.
  destruct (make_move_cases s e self Hwf) as [_|x _|sr sc er ec Hs He _];
    try assumption.
  apply move_outcome_wf; [assumption|eapply names_on_board; eassumption..].
Qed.

Lemma reachable_wf (self : ChessVar) : reachable self -> wf_board (_board self).
Proof.
  induction 1 as [|self s e _ IH]; [apply wf_init|apply make_move_wf; assumption].
Qed.

Lemma play_reachable (moves : list (string * string)) (self : ChessVar) :
  reachable self -> reachable (fst (play moves self)).
Proof.
  revert self. induction moves as [|[s e] rest IH]; intros self Hr; simpl; [assumption|].
  pose proof (reach_move self s e Hr) as Hstep.
  destruct (make_move s e self) as [self' [b|x]]; simpl in *; [|assumption].
  specialize (IH self' Hstep).
  destruct (play rest self') as [self'' [bs|x]]; simpl in *; assumption.
Qed.

Lemma after_reachable (moves : list (string * string)) : reachable (after moves).
Proof. apply play_reachable, reach_init. Qed.

(** ** Rejected captures *)

(** A legal capture whose explosion leaves no king: the call returns
    False with turn and game state as before, and the board is the
    exploded one. *)
Lemma make_move_double_kill (s e : string) (self : ChessVar) (sr sc er ec : Z)
    (v : option bool) :
  wf_board (_board self) -> _game_state self = "UNFINISHED" ->
  names s sr sc -> names e er ec ->
  validate_move self (cell (_board self) sr sc) sr sc
                (cell (_board self) er ec) er ec = Ret v ->
  truthy v = true ->
  cell (_board self) er ec <> "00" ->
  kings_verdict (explode_board (_board self) er ec) = false ->
  make_move s e self
  = (with_board self (explode_board (_board self) er ec), Ret false).
Proof.
  intros Hwf Hst Hs He Hv Ht Hls Hk.
  rewrite (make_move_named s e self sr sc er ec) by assumption.
  unfold move_outcome. rewrite Hv, Ht, (is_empty_false _ Hls). cbn [negb]. cbv zeta.
  rewrite Hk. reflexivity.
Qed.

(** C1.  A capture that would remove both kings is rejected, but not
    atomically.  After the ten moves of [kings_meet_moves] both kings stand
    next to e5; White's d4xe5 returns False with the turn and the game
    state unchanged, yet the board the call leaves is not the board it
    found: e5 and both kings' squares have been cleared.  (The moving pawn
    is still on d4.) *)
Theorem C1_double_king_kill_leaves_board_exploded :
  snd (play kings_meet_moves init)
  = Ret [true; true; true; true; true; true; true; true; true; true] /\
  cell (_board kings_meet) 3 3 = "WP" /\
  cell (_board kings_meet) 4 4 = "BP" /\
  cell (_board kings_meet) 5 3 = "WK" /\
  cell (_board kings_meet) 4 5 = "BK" /\
  kings_verdict (explode_board (_board kings_meet) 4 4) = false /\
  snd (make_move "d4" "e5" kings_meet) = Ret false /\
  _turn (fst (make_move "d4" "e5" kings_meet)) = "WHITE" /\
  _game_state (fst (make_move "d4" "e5" kings_meet)) = "UNFINISHED" /\
  _board (fst (make_move "d4" "e5" kings_meet)) <> _board kings_meet /\
  cell (_board (fst (make_move "d4" "e5" kings_meet))) 3 3 = "WP" /\
  cell (_board (fst (make_move "d4" "e5" kings_meet))) 4 4 = "00" /\
  cell (_board (fst (make_move "d4" "e5" kings_meet))) 5 3 = "00" /\
  cell (_board (fst (make_move "d4" "e5" kings_meet))) 4 5 = "00".
Proof.
  vm_compute. repeat split; discriminate.
Qed.

(** ** Path scans

    What holds of C3: a piece strictly between the two ends stops a
    diagonal move in each of the four directions, and a straight move
    towards the higher row or column index. *)

Lemma in_range (a b i : Z) : In i (range a b) <-> a <= i < b.
Proof.
  unfold range. rewrite in_map_iff. split.
  - intros (k & <- & Hk). apply in_seq in Hk. lia.
  - intros H. exists (Z.to_nat (i - a)). split; [lia|]. apply in_seq. lia.
Qed.

Lemma for_in_scan (l : list Z) (f : Z -> result string) (g : Z -> string) :
  (forall i, In i l -> f i = Ret (g i)) ->
  for_in l (fun i => blocked_at (f i))
  = if existsb (fun i => negb (is_empty (g i))) l
    then Ret (Some (Some false)) else Ret None.
Proof.
  induction l as [|i l IH]; intros Hf; simpl; [reflexivity|].
  rewrite (Hf i) by (left; reflexivity).
  unfold and_then, blocked_at. simpl.
  destruct (negb (is_empty (g i))); simpl; [reflexivity|].
  apply IH. intros j Hj. apply Hf. right; assumption.
Qed.

Lemma scan_blocked (a b k : Z) (f : Z -> result string) (g : Z -> string) :
  (forall i, a <= i < b -> f i = Ret (g i)) ->
  a <= k < b -> g k <> "00" ->
  for_in (range a b) (fun i => blocked_at (f i)) = Ret (Some (Some false)).
Proof.
  intros Hf Hk Hg.
  rewrite (for_in_scan _ f g) by (intros i Hi; apply Hf, in_range, Hi).
  replace (existsb _ _) with true; [reflexivity|].
  symmetry. apply existsb_exists. exists k. split; [apply in_range; assumption|].
  rewrite is_empty_false by assumption. reflexivity.
Qed.

Lemma straight_blocked_up (self : ChessVar) (sr sc er ec k : Z) :
  wf_board (_board self) -> on_board sr sc -> on_board er ec ->
  (sr = er /\ sc < k < ec /\ cell (_board self) sr k <> "00") \/
  (sr <> er /\ sc = ec /\ sr < k < er /\ cell (_board self) k sc <> "00") ->
  validate_rook self sr sc er ec = Ret (Some false) /\
  validate_queen self sr sc er ec = Ret (Some false).
Proof.
  intros Hwf [Hsr Hsc] [Her Hec] Hcase.
  unfold validate_rook, validate_queen.
  destruct Hcase as [(<- & Hk & Hcell)|(Hne & <- & Hk & Hcell)].
  - rewrite Z.sub_diag, Z.eqb_refl.
    destruct (Z.eqb_spec (Z.abs 0) (Z.abs (sc - ec))); [exfalso; lia|].
    rewrite (scan_blocked (sc + 1) ec k _ (fun i => cell (_board self) sr i));
      [split; reflexivity| |lia|assumption].
    intros i Hi. apply board_get_cell; [assumption|unfold on_board; lia].
  - rewrite Z.sub_diag, Z.eqb_refl.
    destruct (Z.eqb_spec sr er); [contradiction|].
    destruct (Z.eqb_spec (Z.abs (sr - er)) (Z.abs 0)); [exfalso; lia|].
    rewrite (scan_blocked (sr + 1) er k _ (fun i => cell (_board self) i sc));
      [split; reflexivity| |lia|assumption].
    intros i Hi. apply board_get_cell; [assumption|unfold on_board; lia].
Qed.

Lemma diagonal_blocked (self : ChessVar) (sr sc er ec k : Z) :
  wf_board (_board self) -> on_board sr sc -> on_board er ec ->
  Z.abs (sr - er) = Z.abs (sc - ec) ->
  0 < k < Z.abs (sr - er) ->
  cell (_board self) (sr + Z.sgn (er - sr) * k) (sc + Z.sgn (ec - sc) * k) <> "00" ->
  validate_bishop self sr sc er ec = Ret (Some false) /\
  validate_queen self sr sc er ec = Ret (Some false).
Proof.
  intros Hwf [Hsr Hsc] [Her Hec] Hdiag Hk Hcell.
  unfold validate_bishop, validate_queen.
  rewrite Hdiag, Z.eqb_refl. unfold diagonal_scan. rewrite Hdiag. rewrite !Z.gtb_ltb.
  destruct (Z.ltb_spec sr er) as [Hr|Hr]; destruct (Z.ltb_spec sc ec) as [Hc|Hc];
    destruct (Z.ltb_spec er sr) as [Hr'|Hr']; destruct (Z.ltb_spec ec sc) as [Hc'|Hc'];
    try (exfalso; lia); cbn [andb].
  - replace (Z.sgn (er - sr)) with 1 in Hcell by lia.
    replace (Z.sgn (ec - sc)) with 1 in Hcell by lia.
    rewrite (scan_blocked 1 _ k _ (fun i => cell (_board self) (sr + i) (sc + i)));
      [split; reflexivity| |lia|rewrite !Z.mul_1_l in Hcell; assumption].
    intros i Hi. apply board_get_cell; [assumption|unfold on_board; lia].
  - replace (Z.sgn (er - sr)) with 1 in Hcell by lia.
    replace (Z.sgn (ec - sc)) with (-1) in Hcell by lia.
    rewrite (scan_blocked 1 _ k _ (fun i => cell (_board self) (sr + i) (sc - i)));
      [split; reflexivity| |lia|].
    + intros i Hi. apply board_get_cell; [assumption|unfold on_board; lia].
    + replace (sc - k) with (sc + -1 * k) by lia.
      replace (sr + k) with (sr + 1 * k) by lia. assumption.
  - replace (Z.sgn (er - sr)) with (-1) in Hcell by lia.
    replace (Z.sgn (ec - sc)) with 1 in Hcell by lia.
    rewrite (scan_blocked 1 _ k _ (fun i => cell (_board self) (sr - i) (sc + i)));
      [split; reflexivity| |lia|].
    + intros i Hi. apply board_get_cell; [assumption|unfold on_board; lia].
    + replace (sr - k) with (sr + -1 * k) by lia.
      replace (sc + k) with (sc + 1 * k) by lia. assumption.
  - replace (Z.sgn (er - sr)) with (-1) in Hcell by lia.
    replace (Z.sgn (ec - sc)) with (-1) in Hcell by lia.
    rewrite (scan_blocked 1 _ k _ (fun i => cell (_board self) (sr - i) (sc - i)));
      [split; reflexivity| |lia|].
    + intros i Hi. apply board_get_cell; [assumption|unfold on_board; lia].
    + replace (sr - k) with (sr + -1 * k) by lia.
      replace (sc - k) with (sc + -1 * k) by lia. assumption.
Qed.

(** C3.  A rook, and a queen moving like one, is not stopped by a piece
    in its way when it travels towards the lower row or column index: the
    loops run over [range(start + 1, end)], which is empty then.  After
    1. a2-a3 the black rook on a8 passes over its own pawn on a7 to a6,
    and the black queen on d8 may pass over d7 to d6. *)
Theorem C3_rook_and_queen_pass_over_a_piece :
  cell (_board black_to_move) 0 7 = "BR" /\
  cell (_board black_to_move) 0 6 = "BP" /\
  cell (_board black_to_move) 0 5 = "00" /\
  validate_rook black_to_move 0 7 0 5 = Ret (Some true) /\
  snd (make_move "a8" "a6" black_to_move) = Ret true /\
  cell (_board (fst (make_move "a8" "a6" black_to_move))) 0 5 = "BR" /\
  cell (_board (fst (make_move "a8" "a6" black_to_move))) 0 6 = "BP" /\
  cell (_board black_to_move) 3 7 = "BQ" /\
  cell (_board black_to_move) 3 6 = "BP" /\
  validate_queen black_to_move 3 7 3 5 = Ret (Some true) /\
  snd (make_move "d8" "d6" black_to_move) = Ret true.
Proof.
  vm_compute. repeat split.
Qed.

(** C4.  A token whose second character is not a digit, or is missing,
    does not make [make_move] return False: [int] raises ValueError and
    the index expression raises IndexError, and nothing catches them.
    Wrong letters and digits outside 1..8 do give False. *)
Theorem C4_malformed_digit_raises :
  make_move "ax" "a1" init = (init, Raise ValueError) /\
  make_move "a2" "ax" init = (init, Raise ValueError) /\
  make_move "a" "a1" init = (init, Raise IndexError) /\
  make_move "" "a1" init = (init, Raise IndexError) /\
  make_move "i1" "a1" init = (init, Ret false) /\
  make_move "a9" "a1" init = (init, Ret false) /\
  make_move "a0" "a1" init = (init, Ret false).
Proof.
  vm_compute. repeat split.
Qed.

(** Tokens with a digit in second place that name no square of the
    board are answered with False, and nothing changes. *)
Lemma make_move_off_board (s e : string) (self : ChessVar) :
  wf_board (_board self) -> has_digit s -> has_digit e ->
  off_board s \/ off_board e ->
  make_move s e self = (self, Ret false).
Proof.
  intros Hwf Hds Hde Hoff.
  destruct (make_move_cases s e self Hwf) as [_|x Hraise|sr sc er ec Hs He _].
  - reflexivity.
  - exfalso. apply Hraise. split; assumption.
  - exfalso. destruct Hoff as [Hoff|Hoff]; [apply (Hoff sr sc Hs)|apply (Hoff er ec He)].
Qed.

(** ** Finished games *)

Lemma make_move_finished (s e : string) (self : ChessVar) :
  _game_state self <> "UNFINISHED" -> make_move s e self = (self, Ret false).
Proof.
  intros Hst. unfold make_move, bindM, eval, retM. cbv beta iota.
  apply String.eqb_neq in Hst. rewrite Hst. reflexivity.
Qed.

(** C7.  Once the game state is no longer "UNFINISHED", every
    [make_move] call, whatever its two arguments, returns False and leaves
    turn, game state and board as they are; so does any sequence of
    calls, and the game state therefore never changes again. *)
Theorem C7_finished_game_rejects_every_move (self : ChessVar) :
  _game_state self <> "UNFINISHED" ->
  (forall s e, make_move s e self = (self, Ret false)) /\
  (forall moves, play moves self = (self, Ret (map (fun _ => false) moves))).
Proof.
  intros Hst. split; [intros s e; apply make_move_finished; assumption|].
  induction moves as [|[s e] rest IH]; simpl; [reflexivity|].
  rewrite make_move_finished by assumption. rewrite IH. reflexivity.
Qed.

Lemma C7_witness :
  _game_state (fst (make_move "d5" "e7" knight_raid)) = "WHITE_WON" /\
  make_move "a5" "a4" (fst (make_move "d5" "e7" knight_raid))
  = (fst (make_move "d5" "e7" knight_raid), Ret false).
Proof.
  split; [vm_compute; reflexivity|].
  apply (C7_finished_game_rejects_every_move (fst (make_move "d5" "e7" knight_raid))).
  vm_compute. discriminate.
Defined.

(** ** The test run and the game state *)

(** Counterexample to C2 as stated: with the white knight on d5, the test
    run of Nd5xe7 (landing square row 4, column 6) removes the black king
    only, and [check_king(test_board)] already sets the game state. *)
Lemma C2_counterexample :
  _game_state knight_raid = "UNFINISHED" /\
  cell (_board knight_raid) 3 4 = "WN" /\
  cell (_board knight_raid) 4 6 = "BP" /\
  _game_state (fst (atomic_landing_test 4 6 knight_raid)) = "WHITE_WON".
Proof.
  vm_compute. repeat split.
Qed.

(** C2, amended.  The test run of [atomic_landing] returns whether a king
    is left after the explosion.  It leaves the game state alone when no
    king is left (the rejected capture) and when both are; when exactly
    one king is left it sets the game state to that side's win itself,
    and the run on the real board that follows sets nothing else. *)
Theorem C2_test_run_sets_state_for_single_king (self : ChessVar) (er ec : Z) :
  wf_board (_board self) -> on_board er ec ->
  let b1 := explode_board (_board self) er ec in
  let tested := atomic_landing_test er ec self in
  snd tested = Ret (has_king b1 "WK" || has_king b1 "BK") /\
  (has_king b1 "WK" = has_king b1 "BK" ->
   _game_state (fst tested) = _game_state self) /\
  (has_king b1 "WK" = true -> has_king b1 "BK" = false ->
   _game_state (fst tested) = "WHITE_WON") /\
  (has_king b1 "WK" = false -> has_king b1 "BK" = true ->
   _game_state (fst tested) = "BLACK_WON") /\
  _game_state (fst (atomic_landing er ec self)) = _game_state (fst tested).
Proof.
  intros Hwf Hon b1 tested. subst tested.
  rewrite atomic_landing_test_eq, atomic_landing_eq by assumption.
  fold b1. simpl. unfold kings_verdict, winner_state.
  destruct (has_king b1 "WK"), (has_king b1 "BK"); repeat split;
    intros; try discriminate; reflexivity.
Qed.

Lemma C2_witness :
  snd (atomic_landing_test 4 6 knight_raid) = Ret true /\
  _game_state (fst (atomic_landing 4 6 knight_raid))
  = _game_state (fst (atomic_landing_test 4 6 knight_raid)).
Proof.
  assert (Hwf : wf_board (_board knight_raid))
    by (split; [reflexivity|vm_compute; repeat constructor]).
  assert (Hon : on_board 4 6) by (unfold on_board; lia).
  pose proof (C2_test_run_sets_state_for_single_king knight_raid 4 6 Hwf Hon) as H.
  cbv zeta in H. destruct H as (H1 & _ & _ & _ & H5).
  split; [rewrite H1; vm_compute; reflexivity|exact H5].
Defined.

(** ** What a committed capture leaves *)

(** Counterexample to C5 as stated: in [pawn_duel] the white pawn on a4
    takes the black pawn on b5.  The capture is committed, and both pawns,
    each inside the 3x3 neighbourhood of b5, are gone afterwards. *)
Lemma C5_counterexample :
  snd (make_move "a4" "b5" pawn_duel) = Ret true /\
  near 1 4 1 4 = true /\
  cell (_board pawn_duel) 1 4 = "BP" /\
  cell (_board (fst (make_move "a4" "b5" pawn_duel))) 1 4 = "00" /\
  near 1 4 0 3 = true /\
  cell (_board pawn_duel) 0 3 = "WP" /\
  cell (_board (fst (make_move "a4" "b5" pawn_duel))) 0 3 = "00".
Proof.
  vm_compute. repeat split.
Qed.

(** C5, amended.  After a committed capture the landing square and the
    square the capturing piece came from are empty, whatever stood on
    them; on every other square of the 3x3 neighbourhood of the landing
    square a cell with the letter P (a pawn) is unchanged and any other
    cell is empty; every square outside the neighbourhood, the origin
    apart, is unchanged. *)
Theorem C5_committed_capture_explosion (self : ChessVar) (s e : string)
    (sr sc er ec : Z) :
  wf_board (_board self) ->
  names s sr sc -> names e er ec ->
  cell (_board self) er ec <> "00" ->
  snd (make_move s e self) = Ret true ->
  forall r c, on_board r c ->
    cell (_board (fst (make_move s e self))) r c =
      if ((r =? sr) && (c =? sc)) || ((r =? er) && (c =? ec)) then "00"
      else if near er ec r c && negb (str_in "P" (cell (_board self) r c)) then "00"
      else cell (_board self) r c.
Proof.
  intros Hwf Hs He Hls Hret r c Hrc.
  pose proof (names_on_board _ _ _ Hs) as Hons.
  pose proof (names_on_board _ _ _ He) as Hone.
  destruct (String.eqb_spec (_game_state self) "UNFINISHED") as [Hst|Hst].
  2:{ rewrite make_move_finished in Hret by assumption. discriminate. }
  rewrite (make_move_named s e self sr sc er ec) in * by assumption.
  unfold move_outcome in *.
  destruct (validate_move self _ sr sc _ er ec) as [v|x]; [|discriminate].
  destruct (truthy v); [|discriminate].
  rewrite (is_empty_false _ Hls) in *. cbn [negb] in *. cbv zeta in *.
  destruct (kings_verdict (explode_board (_board self) er ec)); [|discriminate].
  simpl. rewrite cell_put by (try apply wf_explode_board; assumption).
  rewrite cell_explode_board by assumption.
  destruct ((r =? sr) && (c =? sc)); [reflexivity|]. simpl.
  destruct ((r =? er) && (c =? ec)) eqn:Hctr.
  - replace (near er ec r c) with true; [reflexivity|].
    unfold near. unfold on_board in *. symmetry. bool_arith. subst.
    rewrite !Z.sub_diag. reflexivity.
  - simpl. reflexivity.
Qed.

(** Nd5xe7 in [knight_raid]: the black king on e8 and the knight are
    removed, the pawns on d7 and f7 stay. *)
Lemma C5_witness :
  cell (_board (fst (make_move "d5" "e7" knight_raid))) 4 7 = "00" /\
  cell (_board (fst (make_move "d5" "e7" knight_raid))) 3 4 = "00" /\
  cell (_board (fst (make_move "d5" "e7" knight_raid))) 4 6 = "00" /\
  cell (_board (fst (make_move "d5" "e7" knight_raid))) 3 6 = "BP" /\
  cell (_board (fst (make_move "d5" "e7" knight_raid))) 5 6 = "BP".
Proof.
  assert (H : forall r c, on_board r c ->
    cell (_board (fst (make_move "d5" "e7" knight_raid))) r c =
      if ((r =? 3) && (c =? 4)) || ((r =? 4) && (c =? 6)) then "00"
      else if near 4 6 r c && negb (str_in "P" (cell (_board knight_raid) r c)) then "00"
      else cell (_board knight_raid) r c).
  { apply (C5_committed_capture_explosion knight_raid "d5" "e7" 3 4 4 6).
    - split; [reflexivity|vm_compute; repeat constructor].
    - exists "d"%char, "5"%char, EmptyString. vm_compute. repeat split; discriminate.
    - exists "e"%char, "7"%char, EmptyString. vm_compute. repeat split; discriminate.
    - vm_compute. discriminate.
    - vm_compute. reflexivity. }
  repeat split; rewrite H by (unfold on_board; lia); vm_compute; reflexivity.
Defined.

(** ** The king *)

Lemma validate_king_iff (sr sc : Z) (ls : string) (er ec : Z) :
  truthy (validate_king sr sc ls er ec) = true <->
  Z.abs (sr - er) <= 1 /\ Z.abs (sc - ec) <= 1 /\ ~ (sr = er /\ sc = ec) /\ ls = "00".
Proof.
  unfold validate_king, is_empty.
  destruct (String.eqb_spec ls "00") as [Hls|Hls];
    repeat match goal with
           | |- context [?x =? ?y] => destruct (Z.eqb_spec x y)
           end;
    cbn [orb truthy]; split;
    try (intros H; discriminate H);
    try (intros _; repeat split; solve [lia|assumption]);
    intros (H1 & H2 & H3 & H4); try contradiction; exfalso; lia.
Qed.

Lemma validate_move_king_shape (self : ChessVar) (mp : string) (sr sc : Z)
    (ls : string) (er ec : Z) :
  mp = "WK" \/ mp = "BK" ->
  validate_move self mp sr sc ls er ec = Ret (Some false) \/
  validate_move self mp sr sc ls er ec = Ret (validate_king sr sc ls er ec).
Proof.
  intros Hmp. unfold validate_move. destruct Hmp as [-> | ->].
  - change (is_empty "WK") with false. change (str_in "B" "WK") with false.
    change (str_in "W" "WK") with true. change (str_in "P" "WK") with false.
    change (str_in "R" "WK") with false. change (str_in "N" "WK") with false.
    change (str_in "I" "WK") with false. change (str_in "Q" "WK") with false.
    change (str_in "K" "WK") with true. cbv iota.
    repeat match goal with
           | |- context [if ?c then Ret (Some false) else _] =>
               destruct c; [left; reflexivity|]
           end.
    right; reflexivity.
  - change (is_empty "BK") with false. change (str_in "B" "BK") with true.
    change (str_in "W" "BK") with false. change (str_in "P" "BK") with false.
    change (str_in "R" "BK") with false. change (str_in "N" "BK") with false.
    change (str_in "I" "BK") with false. change (str_in "Q" "BK") with false.
    change (str_in "K" "BK") with true. cbv iota.
    repeat match goal with
           | |- context [if ?c then Ret (Some false) else _] =>
               destruct c; [left; reflexivity|]
           end.
    right; reflexivity.
Qed.

(** C6.  [validate_king] gives a truthy verdict exactly when both
    absolute deltas are at most 1, the two squares differ and the
    destination cell is '00'.  [validate_move] answers for a king with
    that verdict or with False; so a [make_move] call that moves a king
    onto an occupied square returns False and changes nothing: a king
    never captures. *)
Theorem C6_king_moves_one_step_onto_empty (self : ChessVar) (s e : string)
    (sr sc er ec : Z) :
  wf_board (_board self) ->
  names s sr sc -> names e er ec ->
  cell (_board self) sr sc = "WK" \/ cell (_board self) sr sc = "BK" ->
  (forall start_row start_col landing_space end_row end_col,
     truthy (validate_king start_row start_col landing_space end_row end_col) = true <->
     Z.abs (start_row - end_row) <= 1 /\ Z.abs (start_col - end_col) <= 1 /\
     ~ (start_row = end_row /\ start_col = end_col) /\ landing_space = "00") /\
  (forall v,
     validate_move self (cell (_board self) sr sc) sr sc
                   (cell (_board self) er ec) er ec = Ret v ->
     truthy v = true ->
     truthy (validate_king sr sc (cell (_board self) er ec) er ec) = true) /\
  (cell (_board self) er ec <> "00" -> make_move s e self = (self, Ret false)).
Proof.
  intros Hwf Hs He Hking. split; [|split].
  - intros r1 c1 ls r2 c2. apply validate_king_iff.
  - intros v Hv Ht.
    destruct (validate_move_king_shape self _ sr sc (cell (_board self) er ec) er ec Hking)
      as [H|H]; rewrite H in Hv; injection Hv as <-; [discriminate|assumption].
  - intros Hls.
    destruct (String.eqb_spec (_game_state self) "UNFINISHED") as [Hst|Hst];
      [|apply make_move_finished; assumption].
    rewrite (make_move_named s e self sr sc er ec) by assumption.
    unfold move_outcome.
    destruct (validate_move_king self _ sr sc _ er ec Hking (is_empty_false _ Hls))
      as (v & -> & ->).
    reflexivity.
Qed.

(** In [kings_meet] the white king on f4 stands next to the black pawn
    on e5 and may not take it. *)
Lemma C6_witness :
  cell (_board kings_meet) 5 3 = "WK" /\
  cell (_board kings_meet) 4 4 = "BP" /\
  make_move "f4" "e5" kings_meet = (kings_meet, Ret false).
Proof.
  split; [vm_compute; reflexivity|]. split; [vm_compute; reflexivity|].
  apply (C6_king_moves_one_step_onto_empty kings_meet "f4" "e5" 5 3 4 4).
  - split; [reflexivity|vm_compute; repeat constructor].
  - exists "f"%char, "4"%char, EmptyString. vm_compute. repeat split; discriminate.
  - exists "e"%char, "5"%char, EmptyString. vm_compute. repeat split; discriminate.
  - left. vm_compute. reflexivity.
  - vm_compute. discriminate.
Defined.

(** ** Pawns *)

(** C8.  A white pawn on column index 1 (digit 2) on White's turn, and a
    black pawn on column index 6 (digit 7) on Black's turn, moving one or
    two columns forward along its row onto a cell that holds '00', is
    judged legal and the move is made; no cell other than the two ends is
    consulted, so the statement holds whatever stands on the square in
    between. *)
Theorem C8_pawn_opening_ignores_passed_square (self : ChessVar) (s e : string)
    (sr sc ec : Z) (pawn : string) :
  wf_board (_board self) -> _game_state self = "UNFINISHED" ->
  names s sr sc -> names e sr ec ->
  cell (_board self) sr sc = pawn ->
  cell (_board self) sr ec = "00" ->
  (_turn self = "WHITE" /\ pawn = "WP" /\ sc = 1 /\ (ec = sc + 1 \/ ec = sc + 2)) \/
  (_turn self = "BLACK" /\ pawn = "BP" /\ sc = 6 /\ (ec = sc - 1 \/ ec = sc - 2)) ->
  validate_move self pawn sr sc "00" sr ec = Ret (Some true) /\
  make_move s e self
  = (flip_turn (with_board self (put (put (_board self) sr ec pawn) sr sc "00")),
     Ret true).
Proof.
  intros Hwf Hst Hs He Hmp Hls Hcase.
  assert (Hv : validate_move self pawn sr sc "00" sr ec = Ret (Some true)).
  { destruct Hcase as [(Ht & -> & -> & Hec)|(Ht & -> & -> & Hec)].
    - rewrite validate_move_white_pawn. unfold validate_pawn. rewrite Ht.
      change (str_in "W" "00") with false. change (is_empty "00") with true.
      change ("WHITE" =? "WHITE")%string with true.
      change ("WHITE" =? "BLACK")%string with false.
      rewrite Z.eqb_refl. cbn [andb orb].
      destruct Hec as [-> | ->]; reflexivity.
    - rewrite validate_move_black_pawn. unfold validate_pawn. rewrite Ht.
      change (str_in "B" "00") with false. change (is_empty "00") with true.
      change ("BLACK" =? "WHITE")%string with false.
      change ("BLACK" =? "BLACK")%string with true.
      rewrite Z.eqb_refl. cbn [andb orb].
      destruct Hec as [-> | ->]; reflexivity. }
  split; [assumption|].
  rewrite (make_move_named s e self sr sc sr ec) by assumption.
  unfold move_outcome. rewrite Hmp, Hls, Hv. reflexivity.
Qed.

(** In [knight_on_a3] the white knight stands on a3; the pawn on a2
    still goes to a4. *)
Lemma C8_witness :
  cell (_board knight_on_a3) 0 2 = "WN" /\
  make_move "a2" "a4" knight_on_a3
  = (flip_turn (with_board knight_on_a3 (put (put (_board knight_on_a3) 0 3 "WP") 0 1 "00")),
     Ret true).
Proof.
  split; [vm_compute; reflexivity|].
  apply (C8_pawn_opening_ignores_passed_square knight_on_a3 "a2" "a4" 0 1 3 "WP").
  - split; [reflexivity|vm_compute; repeat constructor].
  - vm_compute. reflexivity.
  - exists "a"%char, "2"%char, EmptyString. vm_compute. repeat split; discriminate.
  - exists "a"%char, "4"%char, EmptyString. vm_compute. repeat split; discriminate.
  - vm_compute. reflexivity.
  - vm_compute. reflexivity.
  - left. split; [vm_compute; reflexivity|].
    split; [reflexivity|]. split; [reflexivity|]. right; reflexivity.
Defined.

(** No pawn verdict is truthy for a white pawn on column index 7 or a
    black pawn on column index 0 when the destination is on the board. *)
Lemma validate_pawn_far_edge (self : ChessVar) (sr sc : Z) (ls : string) (er ec : Z) :
  0 <= ec <= 7 ->
  (sc = 7 /\ (_turn self =? "BLACK")%string = false) \/
  (sc = 0 /\ (_turn self =? "WHITE")%string = false) ->
  truthy (validate_pawn self sr sc ls er ec) = false.
Proof.
  intros Hec Hcase. unfold validate_pawn.
  destruct Hcase as [[-> Ht]|[-> Ht]]; rewrite Ht;
    rewrite ?andb_false_r;
    repeat match goal with
           | |- context [?x =? ?y] => destruct (Z.eqb_spec x y); try (exfalso; lia)
           end;
    cbn [andb orb];
    repeat match goal with
           | |- context [if ?c then _ else _] => destruct c
           end; reflexivity.
Qed.

(** A white pawn on column index 7 (digit 8) and a black pawn on column
    index 0 (digit 1) cannot be moved: a [make_move] call that names its
    square as the start never returns True and never changes the object,
    whatever the second argument; it returns False for every second
    argument that has a digit in second place, which covers every square
    on and off the board.  The statement holds on every 8x8 board, hence
    in every reachable position. *)
Theorem far_edge_pawn_cannot_move (self : ChessVar) (s e : string) (sr sc : Z) :
  wf_board (_board self) ->
  names s sr sc ->
  (sc = 7 /\ cell (_board self) sr sc = "WP") \/
  (sc = 0 /\ cell (_board self) sr sc = "BP") ->
  fst (make_move s e self) = self /\
  snd (make_move s e self) <> Ret true /\
  (has_digit e -> make_move s e self = (self, Ret false)).
Proof.
  intros Hwf Hs Hpawn.
  assert (Happly : forall er ec, names e er ec ->
            move_outcome self (cell (_board self) sr sc) sr sc
                         (cell (_board self) er ec) er ec = (self, Ret false)).
  { intros er ec He. destruct (names_on_board _ _ _ He) as [_ Hec].
    unfold move_outcome.
    destruct Hpawn as [[-> ->]|[-> ->]].
    - rewrite validate_move_white_pawn.
      destruct ((sr =? er) && (7 =? ec)); [reflexivity|].
      destruct ((_turn self =? "WHITE")%string && _); [reflexivity|].
      destruct (_turn self =? "BLACK")%string eqn:Ht; [reflexivity|].
      rewrite validate_pawn_far_edge by (try assumption; left; auto). reflexivity.
    - rewrite validate_move_black_pawn.
      destruct ((sr =? er) && (0 =? ec)); [reflexivity|].
      destruct (_turn self =? "WHITE")%string eqn:Ht; [reflexivity|].
      destruct ((_turn self =? "BLACK")%string && _); [reflexivity|].
      rewrite validate_pawn_far_edge by (try assumption; right; auto). reflexivity. }
  destruct (make_move_cases s e self Hwf) as [_|x Hraise|sr' sc' er ec Hs' He _].
  - split; [reflexivity|]. split; [simpl; discriminate|]. intros _. reflexivity.
  - split; [reflexivity|]. split; [simpl; discriminate|].
    intros Hd. exfalso. apply Hraise. split; [eapply names_has_digit; eassumption|assumption].
  - destruct (names_fun _ _ _ _ _ Hs Hs') as [<- <-].
    rewrite (Happly er ec He).
    split; [reflexivity|]. split; [simpl; discriminate|]. intros _. reflexivity.
Qed.

(** In [pawn_on_a8] a white pawn has reached a8. *)
Lemma far_edge_pawn_cannot_move_witness :
  cell (_board pawn_on_a8) 0 7 = "WP" /\
  _turn pawn_on_a8 = "WHITE" /\
  make_move "a8" "b8" pawn_on_a8 = (pawn_on_a8, Ret false).
Proof.
  split; [vm_compute; reflexivity|]. split; [vm_compute; reflexivity|].
  apply (far_edge_pawn_cannot_move pawn_on_a8 "a8" "b8" 0 7).
  - split; [reflexivity|vm_compute; repeat constructor].
  - exists "a"%char, "8"%char, EmptyString. vm_compute. repeat split; discriminate.
  - left. split; [reflexivity|vm_compute; reflexivity].
  - exists "b"%char, "8"%char, EmptyString, 8. vm_compute. split; reflexivity.
Defined.

(** C10.  Not every call that names a far-edge pawn's square as the
    start returns False.  In [pawn_on_a8], reached by the eighteen moves of
    [pawn_on_a8_moves], a white pawn stands on a8 and it is White's turn.
    Calls whose second token has a digit return False, on and off the
    board; but a second token without a digit makes the call raise while
    that token is decoded: ValueError from [int], IndexError from the
    index expressions.  The object is unchanged in each case. *)
Theorem C10_far_edge_pawn_call_raises :
  snd (play pawn_on_a8_moves init)
  = Ret [true; true; true; true; true; true; true; true; true;
         true; true; true; true; true; true; true; true; true] /\
  cell (_board pawn_on_a8) 0 7 = "WP" /\
  _turn pawn_on_a8 = "WHITE" /\
  make_move "a8" "b8" pawn_on_a8 = (pawn_on_a8, Ret false) /\
  make_move "a8" "a9" pawn_on_a8 = (pawn_on_a8, Ret false) /\
  make_move "a8" "ax" pawn_on_a8 = (pawn_on_a8, Raise ValueError) /\
  make_move "a8" "a" pawn_on_a8 = (pawn_on_a8, Raise IndexError) /\
  make_move "a8" "" pawn_on_a8 = (pawn_on_a8, Raise IndexError).
Proof.
  vm_compute. repeat split.
Qed.

(** ** The cell alphabet *)

(** Every cell a call leaves is '00' or a string some cell of the board
    held before the call. *)
Lemma make_move_cells (s e : string) (self : ChessVar) (r c : Z) :
  wf_board (_board self) -> on_board r c ->
  cell (_board (fst (make_move s e self))) r c = "00" \/
  exists r' c', on_board r' c' /\
    cell (_board (fst (make_move s e self))) r c = cell (_board self) r' c'.
Proof.
  intros Hwf Hrc.
  destruct (make_move_cases s e self Hwf) as [_|x _|sr sc er ec Hs He _];
    try (right; exists r, c; split; [assumption|reflexivity]).
  pose proof (names_on_board _ _ _ Hs) as Hons.
  pose proof (names_on_board _ _ _ He) as Hone.
  assert (Hboom : cell (explode_board (_board self) er ec) r c = "00" \/
                  cell (explode_board (_board self) er ec) r c = cell (_board self) r c).
  { rewrite cell_explode_board by assumption.
    destruct (near er ec r c && _); [left|right]; reflexivity. }
  unfold move_outcome.
  destruct (validate_move self _ sr sc _ er ec) as [v|x];
    [|right; exists r, c; split; [assumption|reflexivity]].
  destruct (truthy v); [|right; exists r, c; split; [assumption|reflexivity]].
  destruct (negb (is_empty (cell (_board self) er ec))); cbv zeta.
  - destruct (kings_verdict (explode_board (_board self) er ec)); simpl.
    + rewrite cell_put by (try apply wf_explode_board; assumption).
      destruct ((r =? sr) && (c =? sc)); [left; reflexivity|].
      destruct Hboom as [H|H]; [left; assumption|].
      right; exists r, c; split; assumption.
    + destruct Hboom as [H|H]; [left; assumption|].
      right; exists r, c; split; assumption.
  - simpl. rewrite cell_put by (try apply wf_put; assumption).
    destruct ((r =? sr) && (c =? sc)); [left; reflexivity|].
    rewrite cell_put by assumption.
    destruct ((r =? er) && (c =? ec)).
    + right; exists sr, sc; split; [assumption|reflexivity].
    + right; exists r, c; split; [assumption|reflexivity].
Qed.

Lemma valid_init : valid_board (_board init).
Proof.
  split; [apply wf_init|].
  intros r c [Hr Hc]. unfold valid_cell.
  assert (Hr' : r = 0 \/ r = 1 \/ r = 2 \/ r = 3 \/ r = 4 \/ r = 5 \/ r = 6 \/ r = 7) by lia.
  assert (Hc' : c = 0 \/ c = 1 \/ c = 2 \/ c = 3 \/ c = 4 \/ c = 5 \/ c = 6 \/ c = 7) by lia.
  repeat (destruct Hr' as [->|Hr']); try subst r;
    repeat (destruct Hc' as [->|Hc']); try subst c;
    vm_compute; tauto.
Qed.

Lemma make_move_valid (s e : string) (self : ChessVar) :
  valid_board (_board self) -> valid_board (_board (fst (make_move s e self))).
Proof.
  intros [Hwf Hcells]. split; [apply make_move_wf; assumption|].
  intros r c Hrc.
  destruct (make_move_cells s e self r c Hwf Hrc) as [->|(r' & c' & Hon & ->)].
  - left; reflexivity.
  - apply Hcells; assumption.
Qed.

Lemma reachable_valid (self : ChessVar) : reachable self -> valid_board (_board self).
Proof.
  induction 1 as [|self s e _ IH]; [apply valid_init|apply make_move_valid; assumption].
Qed.

(** C9.  In the starting position and after any number of [make_move]
    calls, whatever their arguments and results, the board has 8 rows
    of 8 cells and every cell holds '00' or one of the twelve piece
    codes; and each cell a further call leaves is '00' or a string that
    was on the board before that call. *)
Theorem C9_cells_stay_in_the_alphabet (self : ChessVar) :
  reachable self ->
  valid_board (_board self) /\
  forall s e r c, on_board r c ->
    valid_cell (cell (_board (fst (make_move s e self))) r c) /\
    (cell (_board (fst (make_move s e self))) r c = "00" \/
     exists r' c', on_board r' c' /\
       cell (_board (fst (make_move s e self))) r c = cell (_board self) r' c').
Proof.
  intros Hreach. pose proof (reachable_valid self Hreach) as Hvalid.
  split; [assumption|].
  intros s e r c Hrc. split.
  - apply (make_move_valid s e self Hvalid). assumption.
  - apply make_move_cells; [apply Hvalid|assumption].
Qed.

Lemma C9_witness :
  valid_board (_board (fst (make_move "a2" "a4" init))) /\
  valid_cell (cell (_board (fst (make_move "b7" "b5" (fst (make_move "a2" "a4" init))))) 1 4).
Proof.
  pose proof (C9_cells_stay_in_the_alphabet (fst (make_move "a2" "a4" init))
                (reach_move init "a2" "a4" reach_init)) as [Hv Hc].
  split; [exact Hv|].
  apply (Hc "b7" "b5" 1 4). unfold on_board. lia.
Defined.

(** * Further properties of the methods *)

(** ** What the path loops decide *)

Lemma for_in_all_empty (l : list Z) (f : Z -> result string) (g : Z -> string) :
  (forall i, In i l -> f i = Ret (g i)) ->
  for_in l (fun i => blocked_at (f i))
  = if all_empty l g then Ret None else Ret (Some (Some false)).
Proof.
  intros Hf. rewrite (for_in_scan l f g Hf). unfold all_empty.
  induction l as [|i l IH]; simpl; [reflexivity|].
  destruct (is_empty (g i)); simpl; [|reflexivity].
  apply IH. intros j Hj. apply Hf. right; assumption.
Qed.

Lemma all_empty_range (a b : Z) (g : Z -> string) :
  all_empty (range a b) g = true <-> forall k, a <= k < b -> g k = "00".
Proof.
  unfold all_empty. rewrite forallb_forall. split.
  - intros H k Hk. apply String.eqb_eq. apply H. apply in_range. assumption.
  - intros H k Hk. apply String.eqb_eq. apply H. apply in_range. assumption.
Qed.

Lemma scan_then_true (l : list Z) (f : Z -> result string) (g : Z -> string) :
  (forall i, In i l -> f i = Ret (g i)) ->
  body_value (for_in l (fun i => blocked_at (f i)) ;;; Ret (Some (Some true)))
  = Ret (Some (all_empty l g)).
Proof.
  intros Hf. rewrite (for_in_all_empty l f g Hf).
  destruct (all_empty l g); reflexivity.
Qed.

(** [validate_rook] on squares of an 8x8 board always answers True or
    False.  It answers True exactly when the two squares share the row
    and every cell with a column index strictly between [start_col] and
    [end_col], counted upwards from [start_col], is '00', or they
    share the column and not the row and the same holds of the row
    indices.  Towards a lower index no cell lies in between in that
    sense, so nothing is looked at. *)
Theorem rook_verdict (self : ChessVar) (sr sc er ec : Z) :
  wf_board (_board self) -> on_board sr sc -> on_board er ec ->
  exists v, validate_rook self sr sc er ec = Ret (Some v) /\
    (v = true <->
     (sr = er /\ forall k, sc < k < ec -> cell (_board self) sr k = "00") \/
     (sr <> er /\ sc = ec /\ forall k, sr < k < er -> cell (_board self) k sc = "00")).
Proof.
  intros Hwf [Hsr Hsc] [Her Hec]. unfold validate_rook.
  destruct (Z.eqb_spec sr er) as [<-|Hne].
  - rewrite (scan_then_true _ _ (fun i => cell (_board self) sr i))
      by (intros i Hi; apply in_range in Hi; apply board_get_cell;
          [assumption|unfold on_board; lia]).
    eexists; split; [reflexivity|].
    rewrite all_empty_range. split.
    + intros H. left. split; [reflexivity|]. intros k Hk. apply H. lia.
    + intros [[_ H]|[Hne _]]; [|contradiction]. intros k Hk. apply H. lia.
  - destruct (Z.eqb_spec sc ec) as [<-|Hnc].
    + rewrite (scan_then_true _ _ (fun i => cell (_board self) i sc))
        by (intros i Hi; apply in_range in Hi; apply board_get_cell;
            [assumption|unfold on_board; lia]).
      eexists; split; [reflexivity|].
      rewrite all_empty_range. split.
      * intros H. right. split; [assumption|]. split; [reflexivity|].
        intros k Hk. apply H. lia.
      * intros [[He _]|(_ & _ & H)]; [contradiction|]. intros k Hk. apply H. lia.
    + exists false. split; [reflexivity|]. split; [discriminate|].
      intros [[He _]|(_ & Hc & _)]; contradiction.
Qed.

(** From a1 along row a to a4 in the starting position: the pawn on a2 is
    in the way. *)
Lemma rook_verdict_witness : validate_rook init 0 0 0 3 = Ret (Some false).
Proof.
  destruct (rook_verdict init 0 0 0 3) as (v & Hv & Hiff).
  - split; [reflexivity|vm_compute; repeat constructor].
  - unfold on_board; lia.
  - unfold on_board; lia.
  - rewrite Hv. destruct v; [exfalso|reflexivity].
    destruct (proj1 Hiff eq_refl) as [[_ H]|[H _]]; [|lia].
    specialize (H 1 ltac:(lia)). vm_compute in H. discriminate H.
Defined.

Lemma diagonal_scan_eq (self : ChessVar) (sr sc er ec : Z) :
  wf_board (_board self) -> on_board sr sc -> on_board er ec ->
  Z.abs (sr - er) = Z.abs (sc - ec) ->
  body_value (diagonal_scan self sr sc er ec)
  = Ret (Some (all_empty (range 1 (Z.abs (sr - er)))
                 (fun i => cell (_board self) (sr + Z.sgn (er - sr) * i)
                                (sc + Z.sgn (ec - sc) * i)))).
Proof.
  intros Hwf [Hsr Hsc] [Her Hec] Hdiag. unfold diagonal_scan. rewrite !Z.gtb_ltb.
  set (g := fun i => cell (_board self) (sr + Z.sgn (er - sr) * i)
                          (sc + Z.sgn (ec - sc) * i)).
  destruct (Z.ltb_spec sr er) as [Hr|Hr]; destruct (Z.ltb_spec sc ec) as [Hc|Hc];
    destruct (Z.ltb_spec er sr) as [Hr'|Hr']; destruct (Z.ltb_spec ec sc) as [Hc'|Hc'];
    try (exfalso; lia); cbn [andb].
  - rewrite (for_in_all_empty _ _ g).
    + destruct (all_empty _ g); reflexivity.
    + intros i Hi. apply in_range in Hi. unfold g.
      replace (Z.sgn (er - sr)) with 1 by lia. replace (Z.sgn (ec - sc)) with 1 by lia.
      rewrite !Z.mul_1_l. apply board_get_cell; [assumption|unfold on_board; lia].
  - rewrite (for_in_all_empty _ _ g).
    + destruct (all_empty _ g); reflexivity.
    + intros i Hi. apply in_range in Hi. unfold g.
      replace (Z.sgn (er - sr)) with 1 by lia. replace (Z.sgn (ec - sc)) with (-1) by lia.
      rewrite Z.mul_1_l. replace (sc + -1 * i) with (sc - i) by lia.
      apply board_get_cell; [assumption|unfold on_board; lia].
  - rewrite (for_in_all_empty _ _ g).
    + destruct (all_empty _ g); reflexivity.
    + intros i Hi. apply in_range in Hi. unfold g.
      replace (Z.sgn (er - sr)) with (-1) by lia. replace (Z.sgn (ec - sc)) with 1 by lia.
      rewrite Z.mul_1_l. replace (sr + -1 * i) with (sr - i) by lia.
      apply board_get_cell; [assumption|unfold on_board; lia].
  - rewrite (for_in_all_empty _ _ g).
    + destruct (all_empty _ g); reflexivity.
    + intros i Hi. apply in_range in Hi. unfold g.
      replace (Z.sgn (er - sr)) with (-1) by lia. replace (Z.sgn (ec - sc)) with (-1) by lia.
      replace (sr + -1 * i) with (sr - i) by lia. replace (sc + -1 * i) with (sc - i) by lia.
      apply board_get_cell; [assumption|unfold on_board; lia].
  - replace (Z.abs (sr - er)) with 0 by lia. reflexivity.
Qed.

(** [validate_bishop] on squares of an 8x8 board always answers True or
    False, and True exactly when the absolute row and column deltas are
    equal and every cell strictly between the two squares on that
    diagonal is '00', in each of the four directions. *)
Theorem bishop_verdict (self : ChessVar) (sr sc er ec : Z) :
  wf_board (_board self) -> on_board sr sc -> on_board er ec ->
  exists v, validate_bishop self sr sc er ec = Ret (Some v) /\
    (v = true <->
     Z.abs (sr - er) = Z.abs (sc - ec) /\
     forall k, 0 < k < Z.abs (sr - er) ->
       cell (_board self) (sr + Z.sgn (er - sr) * k) (sc + Z.sgn (ec - sc) * k) = "00").
Proof.
  intros Hwf Hs He. unfold validate_bishop.
  destruct (Z.eqb_spec (Z.abs (sr - er)) (Z.abs (sc - ec))) as [Hdiag|Hnd].
  - rewrite diagonal_scan_eq by assumption.
    eexists; split; [reflexivity|]. rewrite all_empty_range. split.
    + intros H. split; [assumption|]. intros k Hk. apply H. lia.
    + intros [_ H] k Hk. apply H. lia.
  - exists false. split; [reflexivity|]. split; [discriminate|].
    intros [Hd _]. contradiction.
Qed.

(** From c1 towards f4 in the starting position: the pawn on d2 is in
    the way. *)
Lemma bishop_verdict_witness : validate_bishop init 2 0 5 3 = Ret (Some false).
Proof.
  destruct (bishop_verdict init 2 0 5 3) as (v & Hv & Hiff).
  - split; [reflexivity|vm_compute; repeat constructor].
  - unfold on_board; lia.
  - unfold on_board; lia.
  - rewrite Hv. destruct v; [exfalso|reflexivity].
    destruct (proj1 Hiff eq_refl) as [_ H].
    specialize (H 1 ltac:(lia)). vm_compute in H. discriminate H.
Defined.

(** [validate_queen] answers True exactly when [validate_rook] or
    [validate_bishop] does, on any board and any four integers. *)
Theorem queen_is_rook_or_bishop (self : ChessVar) (sr sc er ec : Z) :
  validate_queen self sr sc er ec = Ret (Some true) <->
  validate_rook self sr sc er ec = Ret (Some true) \/
  validate_bishop self sr sc er ec = Ret (Some true).
Proof.
  unfold validate_queen, validate_rook, validate_bishop.
  destruct (Z.eqb_spec (Z.abs (sr - er)) (Z.abs (sc - ec))) as [Hdiag|Hnd].
  - split; [intros H; right; assumption|].
    intros [H|H]; [|assumption].
    destruct (Z.eqb_spec sr er) as [<-|Hne].
    + assert (sc = ec) as <- by lia.
      unfold diagonal_scan. rewrite !Z.gtb_ltb, !Z.ltb_irrefl. reflexivity.
    + destruct (Z.eqb_spec sc ec) as [<-|Hnc]; [exfalso; lia|]. discriminate H.
  - split; [intros H; left; assumption|].
    intros [H|H]; [assumption|discriminate H].
Qed.

(** ** No exception from the board *)

Lemma validate_rook_returns (self : ChessVar) (sr sc er ec : Z) :
  wf_board (_board self) -> on_board sr sc -> on_board er ec ->
  exists v, validate_rook self sr sc er ec = Ret (Some v).
Proof.
  intros Hwf [Hsr Hsc] [Her Hec]. unfold validate_rook.
  destruct (Z.eqb_spec sr er) as [<-|Hne].
  - rewrite (scan_then_true _ _ (fun i => cell (_board self) sr i))
      by (intros i Hi; apply in_range in Hi; apply board_get_cell;
          [assumption|unfold on_board; lia]).
    eexists; reflexivity.
  - destruct (Z.eqb_spec sc ec) as [<-|Hnc]; [|eexists; reflexivity].
    rewrite (scan_then_true _ _ (fun i => cell (_board self) i sc))
      by (intros i Hi; apply in_range in Hi; apply board_get_cell;
          [assumption|unfold on_board; lia]).
    eexists; reflexivity.
Qed.

Lemma validate_bishop_returns (self : ChessVar) (sr sc er ec : Z) :
  wf_board (_board self) -> on_board sr sc -> on_board er ec ->
  exists v, validate_bishop self sr sc er ec = Ret (Some v).
Proof.
  intros Hwf Hs He. unfold validate_bishop.
  destruct (Z.eqb_spec (Z.abs (sr - er)) (Z.abs (sc - ec))) as [Hdiag|Hnd].
  - rewrite diagonal_scan_eq by assumption. eexists; reflexivity.
  - eexists; reflexivity.
Qed.

Lemma queen_returns (self : ChessVar) (sr sc er ec : Z) :
  wf_board (_board self) -> on_board sr sc -> on_board er ec ->
  exists v, validate_queen self sr sc er ec = Ret (Some v).
Proof.
  intros Hwf Hs He. unfold validate_queen.
  destruct (Z.eqb_spec (Z.abs (sr - er)) (Z.abs (sc - ec))) as [Hdiag|Hnd].
  - rewrite diagonal_scan_eq by assumption. eexists; reflexivity.
  - destruct (validate_rook_returns self sr sc er ec Hwf Hs He) as (v & Hv).
    exists v. exact Hv.
Qed.

Lemma validate_move_returns (self : ChessVar) (mp : string) (sr sc : Z)
    (ls : string) (er ec : Z) :
  wf_board (_board self) -> on_board sr sc -> on_board er ec ->
  exists v, validate_move self mp sr sc ls er ec = Ret v.
Proof.
  intros Hwf Hs He. unfold validate_move.
  destruct (validate_rook_returns self sr sc er ec Hwf Hs He) as (vr & Hr).
  destruct (validate_bishop_returns self sr sc er ec Hwf Hs He) as (vb & Hb).
  destruct (queen_returns self sr sc er ec Hwf Hs He) as (vq & Hq).
  rewrite Hr, Hb, Hq.
  repeat match goal with
         | |- context [if ?c then _ else _] => destruct c
         end; eexists; reflexivity.
Qed.

(** On an 8x8 board no call raises once both tokens have a digit in
    second place: every board access of [make_move], of the path loops
    and of the explosion stays inside the lists.  A call that does raise
    (a token without that digit) leaves the object untouched. *)
Theorem make_move_raises_only_on_tokens (self : ChessVar) (s e : string) :
  wf_board (_board self) ->
  (has_digit s -> has_digit e ->
   exists ok, snd (make_move s e self) = Ret ok) /\
  (forall x, snd (make_move s e self) = Raise x ->
   fst (make_move s e self) = self /\ ~ (has_digit s /\ has_digit e)).
Proof.
  intros Hwf.
  assert (Happly : forall sr sc er ec, on_board sr sc -> on_board er ec ->
            exists ok, snd (move_outcome self (cell (_board self) sr sc) sr sc
                                          (cell (_board self) er ec) er ec) = Ret ok).
  { intros sr sc er ec Hs He. unfold move_outcome.
    destruct (validate_move_returns self (cell (_board self) sr sc) sr sc
                (cell (_board self) er ec) er ec Hwf Hs He) as (v & ->).
    destruct (truthy v); [|eexists; reflexivity].
    destruct (negb _); cbv zeta; [|eexists; reflexivity].
    destruct (kings_verdict _); eexists; reflexivity. }
  destruct (make_move_cases s e self Hwf) as [_|x Hraise|sr sc er ec Hs He _].
  - split; [intros _ _; exists false; reflexivity|]. intros x Hx. discriminate Hx.
  - split; [intros Hds Hde; exfalso; apply Hraise; split; assumption|].
    intros y _. split; [reflexivity|assumption].
  - destruct (Happly sr sc er ec (names_on_board _ _ _ Hs) (names_on_board _ _ _ He))
      as (ok & Hok).
    split; [intros _ _; exists ok; assumption|].
    intros x Hx. rewrite Hok in Hx. discriminate Hx.
Qed.

Lemma make_move_raises_only_on_tokens_witness :
  (exists ok, snd (make_move "d1" "d8" init) = Ret ok) /\
  fst (make_move "d1" "dx" init) = init.
Proof.
  assert (Hwf : wf_board (_board init))
    by (split; [reflexivity|vm_compute; repeat constructor]).
  split.
  - apply (make_move_raises_only_on_tokens init "d1" "d8" Hwf).
    + exists "d"%char, "1"%char, EmptyString, 1. split; reflexivity.
    + exists "d"%char, "8"%char, EmptyString, 8. split; reflexivity.
  - apply (proj2 (make_move_raises_only_on_tokens init "d1" "dx" Hwf) ValueError).
    vm_compute. reflexivity.
Defined.

(** ** Rejected calls, the turn, and plain moves *)

(** A legal verdict implies a piece on the start square and two
    different squares. *)
Lemma validate_move_truthy (self : ChessVar) (mp : string) (sr sc : Z)
    (ls : string) (er ec : Z) (v : option bool) :
  validate_move self mp sr sc ls er ec = Ret v -> truthy v = true ->
  mp <> "00" /\ ~ (sr = er /\ sc = ec).
Proof.
  unfold validate_move, is_empty. intros Hv Ht.
  destruct (String.eqb_spec mp "00") as [->|Hmp].
  { injection Hv as <-. discriminate Ht. }
  split; [assumption|]. intros [-> ->]. rewrite !Z.eqb_refl in Hv. simpl in Hv.
  injection Hv as <-. discriminate Ht.
Qed.

(** A call that returns False has changed neither the turn nor the game
    state.  It has changed the board in one case only: a capture that
    [validate_move] judged legal and after whose explosion no king is
    left; the board is then the exploded one.  In every other case the
    object is exactly as before. *)
Theorem make_move_false_effect (self : ChessVar) (s e : string) :
  wf_board (_board self) ->
  snd (make_move s e self) = Ret false ->
  _turn (fst (make_move s e self)) = _turn self /\
  _game_state (fst (make_move s e self)) = _game_state self /\
  (fst (make_move s e self) = self \/
   exists sr sc er ec,
     names s sr sc /\ names e er ec /\
     _game_state self = "UNFINISHED" /\
     (exists v, validate_move self (cell (_board self) sr sc) sr sc
                              (cell (_board self) er ec) er ec = Ret v /\
                truthy v = true) /\
     cell (_board self) er ec <> "00" /\
     has_king (explode_board (_board self) er ec) "WK" = false /\
     has_king (explode_board (_board self) er ec) "BK" = false /\
     _board (fst (make_move s e self)) = explode_board (_board self) er ec).
Proof.
  intros Hwf.
  destruct (make_move_cases s e self Hwf) as [_|x _|sr sc er ec Hs He Hst];
    try (intros _; repeat split; left; reflexivity).
  unfold move_outcome.
  destruct (validate_move self _ sr sc _ er ec) as [v|x] eqn:Hv;
    [|intros H; discriminate H].
  destruct (truthy v) eqn:Ht; [|intros _; repeat split; left; reflexivity].
  destruct (is_empty (cell (_board self) er ec)) eqn:Hls; cbn [negb]; cbv zeta;
    [intros H; discriminate H|].
  destruct (kings_verdict (explode_board (_board self) er ec)) eqn:Hk;
    [intros H; discriminate H|].
  intros _. split; [reflexivity|]. split; [reflexivity|]. right.
  exists sr, sc, er, ec. unfold kings_verdict in Hk. apply orb_false_iff in Hk.
  destruct Hk as [Hw Hb].
  split; [assumption|]. split; [assumption|]. split; [assumption|].
  split; [exists v; split; assumption|].
  split; [|split; [assumption|split; [assumption|reflexivity]]].
  intros Heq. unfold is_empty in Hls. rewrite Heq in Hls. discriminate Hls.
Qed.

(** The rejected d4xe5 of [kings_meet]: turn and game state stay, the
    board does not. *)
Lemma make_move_false_effect_witness :
  _turn (fst (make_move "d4" "e5" kings_meet)) = _turn kings_meet /\
  _game_state (fst (make_move "d4" "e5" kings_meet)) = _game_state kings_meet /\
  fst (make_move "d4" "e5" kings_meet) <> kings_meet.
Proof.
  destruct (make_move_false_effect kings_meet "d4" "e5") as (Ht & Hs & _).
  - split; [reflexivity|vm_compute; repeat constructor].
  - vm_compute. reflexivity.
  - split; [assumption|]. split; [assumption|]. vm_compute. discriminate.
Defined.

Lemma make_move_turn_eq (self : ChessVar) (s e : string) :
  wf_board (_board self) ->
  _turn (fst (make_move s e self))
  = match snd (make_move s e self) with
    | Ret true => other_turn (_turn self)
    | _ => _turn self
    end.
Proof.
  intros Hwf.
  destruct (make_move_cases s e self Hwf) as [_|x _|sr sc er ec Hs He _];
    try reflexivity.
  unfold move_outcome.
  destruct (validate_move self _ sr sc _ er ec) as [v|x]; [|reflexivity].
  destruct (truthy v); [|reflexivity].
  destruct (negb _); cbv zeta; [|reflexivity].
  destruct (kings_verdict _); reflexivity.
Qed.

(** The turn changes exactly on the calls that return True: then it
    goes from "WHITE" to "BLACK" and from anything else to "WHITE";
    on every other call, raising ones included, it stays. *)
Theorem make_move_turn (self : ChessVar) (s e : string) :
  wf_board (_board self) ->
  _turn (fst (make_move s e self))
  = match snd (make_move s e self) with
    | Ret true => other_turn (_turn self)
    | _ => _turn self
    end.
Proof.
  intros Hwf.
  destruct (make_move_cases s e self Hwf) as [_|x _|sr sc er ec Hs He _];
    try reflexivity.
  unfold move_outcome.
  destruct (validate_move self _ sr sc _ er ec) as [v|x]; [|reflexivity].
  destruct (truthy v); [|reflexivity].
  destruct (negb _); cbv zeta; [|reflexivity].
  destruct (kings_verdict _); reflexivity.
Qed.

Lemma make_move_turn_witness :
  _turn (fst (make_move "a2" "a4" init)) = "BLACK" /\
  _turn (fst (make_move "a2" "a5" init)) = "WHITE".
Proof.
  assert (Hwf : wf_board (_board init))
    by (split; [reflexivity|vm_compute; repeat constructor]).
  split; rewrite (make_move_turn init _ _ Hwf); vm_compute; reflexivity.
Defined.

(** A call that returns True onto a square that held '00' moves the
    piece and does nothing else: afterwards the start square holds '00',
    the end square holds what the start square held, every other cell
    and the game state are as before. *)
Theorem make_move_plain_effect (self : ChessVar) (s e : string) (sr sc er ec : Z) :
  wf_board (_board self) ->
  names s sr sc -> names e er ec ->
  cell (_board self) er ec = "00" ->
  snd (make_move s e self) = Ret true ->
  _game_state (fst (make_move s e self)) = _game_state self /\
  cell (_board self) sr sc <> "00" /\
  forall r c, on_board r c ->
    cell (_board (fst (make_move s e self))) r c =
      if (r =? sr) && (c =? sc) then "00"
      else if (r =? er) && (c =? ec) then cell (_board self) sr sc
      else cell (_board self) r c.
Proof.
  intros Hwf Hs He Hls Hret.
  pose proof (names_on_board _ _ _ Hs) as Hons.
  pose proof (names_on_board _ _ _ He) as Hone.
  destruct (String.eqb_spec (_game_state self) "UNFINISHED") as [Hst|Hst].
  2:{ rewrite make_move_finished in Hret by assumption. discriminate. }
  rewrite (make_move_named s e self sr sc er ec) in * by assumption.
  unfold move_outcome in *. rewrite Hls in *.
  destruct (validate_move self _ sr sc _ er ec) as [v|x] eqn:Hv; [|discriminate].
  destruct (truthy v) eqn:Ht; [|discriminate].
  destruct (validate_move_truthy _ _ _ _ _ _ _ _ Hv Ht) as [Hmp _].
  change (negb (is_empty "00")) with false. cbv iota.
  split; [reflexivity|]. split; [assumption|].
  intros r c Hrc. simpl.
  rewrite cell_put by (try apply wf_put; assumption).
  destruct ((r =? sr) && (c =? sc)); [reflexivity|].
  rewrite cell_put by assumption. reflexivity.
Qed.

Lemma make_move_plain_effect_witness :
  cell (_board (fst (make_move "a2" "a4" init))) 0 1 = "00" /\
  cell (_board (fst (make_move "a2" "a4" init))) 0 3 = "WP" /\
  cell (_board (fst (make_move "a2" "a4" init))) 0 2 = "00".
Proof.
  destruct (make_move_plain_effect init "a2" "a4" 0 1 0 3) as (_ & _ & H).
  - split; [reflexivity|vm_compute; repeat constructor].
  - exists "a"%char, "2"%char, EmptyString. vm_compute. repeat split; discriminate.
  - exists "a"%char, "4"%char, EmptyString. vm_compute. repeat split; discriminate.
  - vm_compute. reflexivity.
  - vm_compute. reflexivity.
  - repeat split; rewrite H by (unfold on_board; lia); vm_compute; reflexivity.
Defined.

(** ** The checks of [validate_move] *)



(** ** Pawn and knight verdicts *)

(** On White's or Black's turn [validate_pawn] is truthy in exactly two
    situations.  Same row, landing cell '00', and the column moves one
    step forward for the side to move, or two steps from that side's
    home column.  Or: the row changes by one, the column moves one step
    forward, and the landing cell is not '00'.  Forward is +1 for White
    and -1 for Black; the colour of the moving pawn is not looked at. *)
Theorem pawn_verdict (self : ChessVar) (sr sc : Z) (ls : string) (er ec : Z) :
  _turn self = "WHITE" \/ _turn self = "BLACK" ->
  truthy (validate_pawn self sr sc ls er ec) = true <->
  (sr = er /\ ls = "00" /\
   (ec = sc + forward (_turn self) \/
    (sc = home_col (_turn self) /\ ec = sc + 2 * forward (_turn self)))) \/
  (Z.abs (sr - er) = 1 /\ ec = sc + forward (_turn self) /\ ls <> "00").
Proof.
  intros Hturn. unfold validate_pawn, is_empty, forward, home_col.
  destruct Hturn as [-> | ->].
  - change ("WHITE" =? "WHITE")%string with true.
    change ("WHITE" =? "BLACK")%string with false.
    rewrite !andb_true_r, !andb_false_r.
    destruct (String.eqb_spec ls "00") as [Hls|Hls];
      repeat match goal with
             | |- context [?x =? ?y] => destruct (Z.eqb_spec x y)
             end;
      cbn [andb orb negb truthy]; split;
      try (intros H; discriminate H);
      try (intros _; solve [left; repeat split; solve [assumption|lia|left; lia|right; lia]
                           |right; repeat split; solve [assumption|lia]]);
      intros [(H1 & H2 & [H3|[H3 H4]])|(H1 & H2 & H3)];
      try reflexivity; try contradiction; exfalso; lia.
  - change ("BLACK" =? "WHITE")%string with false.
    change ("BLACK" =? "BLACK")%string with true.
    rewrite !andb_true_r, !andb_false_r.
    destruct (String.eqb_spec ls "00") as [Hls|Hls];
      repeat match goal with
             | |- context [?x =? ?y] => destruct (Z.eqb_spec x y)
             end;
      cbn [andb orb negb truthy]; split;
      try (intros H; discriminate H);
      try (intros _; solve [left; repeat split; solve [assumption|lia|left; lia|right; lia]
                           |right; repeat split; solve [assumption|lia]]);
      intros [(H1 & H2 & [H3|[H3 H4]])|(H1 & H2 & H3)];
      try reflexivity; try contradiction; exfalso; lia.
Qed.

(** White's a2-a4 on the first move. *)
Lemma pawn_verdict_witness :
  truthy (validate_pawn init 0 1 "00" 0 3) = true /\
  truthy (validate_pawn init 0 1 "00" 1 2) = false.
Proof.
  assert (Hturn : _turn init = "WHITE" \/ _turn init = "BLACK") by (left; reflexivity).
  split.
  - apply (proj2 (pawn_verdict init 0 1 "00" 0 3 Hturn)).
    left. split; [reflexivity|]. split; [reflexivity|]. right. split; reflexivity.
  - apply not_true_is_false. intros H.
    apply (proj1 (pawn_verdict init 0 1 "00" 1 2 Hturn)) in H.
    destruct H as [(H & _)|(_ & _ & H)]; [discriminate H|apply H; reflexivity].
Defined.

(** For a knight of the side to move, [validate_move] is truthy exactly
    when the landing cell does not contain that side's letter and the
    absolute deltas are 1 and 2 in either order.  The board is not
    consulted, so what stands between or around the two squares plays no
    part. *)
Theorem knight_verdict (self : ChessVar) (mp friend : string) (sr sc : Z)
    (ls : string) (er ec : Z) :
  (_turn self = "WHITE" /\ mp = "WN" /\ friend = "W") \/
  (_turn self = "BLACK" /\ mp = "BN" /\ friend = "B") ->
  exists v, validate_move self mp sr sc ls er ec = Ret v /\
    (truthy v = true <->
     str_in friend ls = false /\
     ((Z.abs (sr - er) = 1 /\ Z.abs (sc - ec) = 2) \/
      (Z.abs (sr - er) = 2 /\ Z.abs (sc - ec) = 1))).
Proof.
  intros Hside. unfold validate_move.
  assert (Hshape : truthy (validate_knight sr sc er ec) = true <->
                   (Z.abs (sr - er) = 1 /\ Z.abs (sc - ec) = 2) \/
                   (Z.abs (sr - er) = 2 /\ Z.abs (sc - ec) = 1)).
  { unfold validate_knight.
    repeat match goal with
           | |- context [?x =? ?y] => destruct (Z.eqb_spec x y)
           end; cbn [truthy]; split;
      try (intros H; discriminate H);
      try (intros _; solve [left; split; assumption|right; split; assumption]);
      intros [[H1 H2]|[H1 H2]]; try reflexivity; exfalso; lia. }
  destruct Hside as [(-> & -> & ->)|(-> & -> & ->)].
  - change (is_empty "WN") with false. change (str_in "B" "WN") with false.
    change (str_in "W" "WN") with true. change (str_in "P" "WN") with false.
    change (str_in "R" "WN") with false. change (str_in "N" "WN") with true.
    change ("WHITE" =? "WHITE")%string with true.
    change ("WHITE" =? "BLACK")%string with false. cbn [andb]. cbv iota.
    destruct ((sr =? er) && (sc =? ec)) eqn:Hsame.
    + exists (Some false). split; [reflexivity|]. split; [discriminate|].
      intros [_ Hs]. exfalso. unfold on_board in *. bool_arith. lia.
    + destruct (str_in "W" ls).
      * exists (Some false). split; [reflexivity|]. split; [discriminate|].
        intros [H _]. discriminate H.
      * eexists. split; [reflexivity|]. rewrite Hshape. tauto.
  - change (is_empty "BN") with false. change (str_in "B" "BN") with true.
    change (str_in "W" "BN") with false. change (str_in "P" "BN") with false.
    change (str_in "R" "BN") with false. change (str_in "N" "BN") with true.
    change ("BLACK" =? "WHITE")%string with false.
    change ("BLACK" =? "BLACK")%string with true. cbn [andb]. cbv iota.
    destruct ((sr =? er) && (sc =? ec)) eqn:Hsame.
    + exists (Some false). split; [reflexivity|]. split; [discriminate|].
      intros [_ Hs]. exfalso. unfold on_board in *. bool_arith. lia.
    + destruct (str_in "B" ls).
      * exists (Some false). split; [reflexivity|]. split; [discriminate|].
        intros [H _]. discriminate H.
      * eexists. split; [reflexivity|]. rewrite Hshape. tauto.
Qed.

(** Nb1-c3 on the first move, over the pawns on b2 and c2. *)
Lemma knight_verdict_witness :
  exists v, validate_move init "WN" 1 0 "00" 2 2 = Ret v /\ truthy v = true.
Proof.
  destruct (knight_verdict init "WN" "W" 1 0 "00" 2 2) as (v & Hv & Hiff).
  - left. repeat split.
  - exists v. split; [exact Hv|]. apply Hiff.
    split; [reflexivity|]. left. split; reflexivity.
Defined.

(** ** The two runs of [atomic_landing] *)

(** On an 8x8 board the run on [self._board] adds nothing to the run on
    [test_board]: [atomic_landing] returns what the test run returned and
    leaves the object the test run left.  Both end with the board
    exploded around the landing square, whether the capture is accepted
    or not. *)
Theorem atomic_landing_is_its_test_run (self : ChessVar) (er ec : Z) :
  wf_board (_board self) -> on_board er ec ->
  atomic_landing er ec self = atomic_landing_test er ec self /\
  _board (fst (atomic_landing er ec self)) = explode_board (_board self) er ec /\
  explode_board (explode_board (_board self) er ec) er ec
  = explode_board (_board self) er ec.
Proof.
  intros Hwf Hon.
  rewrite atomic_landing_eq, atomic_landing_test_eq by assumption.
  split; [reflexivity|]. split; [reflexivity|].
  apply explode_board_idem; assumption.
Qed.

Lemma atomic_landing_is_its_test_run_witness :
  atomic_landing 4 6 knight_raid = atomic_landing_test 4 6 knight_raid.
Proof.
  apply (atomic_landing_is_its_test_run knight_raid 4 6).
  - split; [reflexivity|vm_compute; repeat constructor].
  - unfold on_board; lia.
Defined.

(** ** Kings and the game state *)

Lemma has_king_iff (b : Board) (k : string) :
  wf_board b -> has_king b k = true <-> king_on b k.
Proof.
  intros Hwf. unfold has_king, king_on, list_in. rewrite existsb_exists. split.
  - intros (row & Hrow & Hin). apply existsb_exists in Hin.
    destruct Hin as (x & Hx & Hkx). apply String.eqb_eq in Hkx. subst x.
    destruct (In_nth b row [] Hrow) as (n & Hn & Hnth).
    destruct (In_nth row k "" Hx) as (m & Hm & Hmth).
    pose proof (wf_row b (Z.of_nat n) Hwf) as Hlen.
    destruct Hwf as [Hlen8 _]. rewrite Hlen8 in Hn.
    rewrite Nat2Z.id, Hnth in Hlen. rewrite Hlen in Hm by lia.
    exists (Z.of_nat n), (Z.of_nat m). split; [unfold on_board; lia|].
    unfold cell. rewrite !Nat2Z.id, Hnth. exact Hmth.
  - intros (r & c & [Hr Hc] & Hcell).
    exists (nth (Z.to_nat r) b []). split.
    + apply nth_In. destruct Hwf as [-> _]. lia.
    + apply existsb_exists. exists k. split; [|apply String.eqb_refl].
      rewrite <- Hcell. unfold cell. apply nth_In.
      rewrite wf_row by assumption. lia.
Qed.

Lemma has_king_ext (b1 b2 : Board) (k : string) :
  wf_board b1 -> wf_board b2 -> (king_on b1 k <-> king_on b2 k) ->
  has_king b1 k = has_king b2 k.
Proof.
  intros H1 H2 Hiff. apply eq_true_iff_eq.
  rewrite (has_king_iff b1 k H1), (has_king_iff b2 k H2). exact Hiff.
Qed.

(** An explosion puts no king on the board. *)
Lemma king_on_explode (b : Board) (er ec : Z) (k : string) :
  wf_board b -> on_board er ec -> k <> "00" ->
  king_on (explode_board b er ec) k -> king_on b k.
Proof.
  intros Hwf Hon Hk (r & c & Hrc & Hcell).
  rewrite cell_explode_board in Hcell by assumption.
  destruct (near er ec r c && _); [congruence|].
  exists r, c. split; assumption.
Qed.

(** Clearing a square that does not hold [k] keeps [k] where it is. *)
Lemma has_king_put_empty (b : Board) (r0 c0 : Z) (k : string) :
  wf_board b -> on_board r0 c0 -> k <> "00" -> cell b r0 c0 <> k ->
  has_king (put b r0 c0 "00") k = has_king b k.
Proof.
  intros Hwf Hon Hk Hcell. apply has_king_ext; [apply wf_put; assumption|assumption|].
  split; intros (r & c & Hrc & Hc).
  - rewrite cell_put in Hc by assumption.
    destruct ((r =? r0) && (c =? c0)); [congruence|]. exists r, c. split; assumption.
  - exists r, c. split; [assumption|]. rewrite cell_put by assumption.
    destruct ((r =? r0) && (c =? c0)) eqn:Heq; [|assumption].
    unfold on_board in *. bool_arith. subst. contradiction.
Qed.

(** Moving a piece onto a square that held '00' keeps every king. *)
Lemma has_king_plain_move (b : Board) (sr sc er ec : Z) (k : string) :
  wf_board b -> on_board sr sc -> on_board er ec ->
  ~ (sr = er /\ sc = ec) -> cell b er ec = "00" -> k <> "00" ->
  has_king (put (put b er ec (cell b sr sc)) sr sc "00") k = has_king b k.
Proof.
  intros Hwf Hs He Hne Hls Hk.
  apply has_king_ext; [apply wf_put; [apply wf_put|]; assumption|assumption|].
  split; intros (r & c & Hrc & Hc).
  - rewrite cell_put in Hc by (try apply wf_put; assumption).
    destruct ((r =? sr) && (c =? sc)); [congruence|].
    rewrite cell_put in Hc by assumption.
    destruct ((r =? er) && (c =? ec)).
    + exists sr, sc. split; assumption.
    + exists r, c. split; assumption.
  - destruct ((r =? sr) && (c =? sc)) eqn:Horigin.
    + exists er, ec. split; [assumption|].
      rewrite cell_put by (try apply wf_put; assumption).
      destruct ((er =? sr) && (ec =? sc)) eqn:Hsame.
      * exfalso. apply Hne. unfold on_board in *. bool_arith. lia.
      * rewrite cell_put by assumption. rewrite !Z.eqb_refl. cbn [andb].
        unfold on_board in *. bool_arith. subst. reflexivity.
    + exists r, c. split; [assumption|].
      rewrite cell_put by (try apply wf_put; assumption). rewrite Horigin.
      rewrite cell_put by assumption.
      destruct ((r =? er) && (c =? ec)) eqn:Hland; [|assumption].
      exfalso. unfold on_board in *. bool_arith. subst. congruence.
Qed.

Lemma king_not_00 (k : string) : k = "WK" \/ k = "BK" -> k <> "00".
Proof. intros [-> | ->]; discriminate. Qed.

(** The square a capturing piece comes from holds no king after the
    explosion: a king's capture is never legal. *)
Lemma capture_origin_no_king (self : ChessVar) (sr sc er ec : Z)
    (v : option bool) (k : string) :
  wf_board (_board self) -> on_board sr sc -> on_board er ec ->
  validate_move self (cell (_board self) sr sc) sr sc
                (cell (_board self) er ec) er ec = Ret v ->
  truthy v = true -> is_empty (cell (_board self) er ec) = false ->
  k = "WK" \/ k = "BK" ->
  cell (explode_board (_board self) er ec) sr sc <> k.
Proof.
  intros Hwf Hs He Hv Ht Hls Hk Hcell.
  rewrite cell_explode_board in Hcell by assumption.
  destruct (near er ec sr sc && _).
  - apply (king_not_00 k Hk). symmetry. assumption.
  - assert (Hking : cell (_board self) sr sc = "WK" \/ cell (_board self) sr sc = "BK")
      by (rewrite Hcell; assumption).
    destruct (validate_move_king self _ sr sc _ er ec Hking Hls) as (v' & Hv' & Hf).
    rewrite Hv in Hv'. injection Hv' as <-. congruence.
Qed.

Lemma make_move_state_matches (self : ChessVar) (s e : string) :
  wf_board (_board self) -> state_matches_kings self ->
  state_matches_kings (fst (make_move s e self)).
Proof.
  intros Hwf Hinv.
  destruct (make_move_cases s e self Hwf) as [_|x _|sr sc er ec Hs He Hst];
    try assumption.
  pose proof (names_on_board _ _ _ Hs) as Hons.
  pose proof (names_on_board _ _ _ He) as Hone.
  assert (Heq : has_king (_board self) "WK" = has_king (_board self) "BK").
  { destruct Hinv as [[_ H]|[[H _]|[H _]]]; [assumption|congruence|congruence]. }
  unfold move_outcome.
  destruct (validate_move self _ sr sc _ er ec) as [v|x] eqn:Hv; [|assumption].
  destruct (truthy v) eqn:Ht; [|assumption].
  destruct (validate_move_truthy _ _ _ _ _ _ _ _ Hv Ht) as [Hmp Hne].
  destruct (is_empty (cell (_board self) er ec)) eqn:Hls; cbn [negb]; cbv zeta.
  - left. simpl. split; [assumption|].
    apply String.eqb_eq in Hls.
    rewrite !has_king_plain_move by (try assumption; discriminate). assumption.
  - pose proof (wf_explode_board _ er ec Hwf Hone) as Hwf1.
    destruct (kings_verdict (explode_board (_board self) er ec)) eqn:Hk.
    + unfold state_matches_kings. simpl.
      rewrite !has_king_put_empty
        by (try assumption; try discriminate;
            eapply capture_origin_no_king; eauto).
      unfold kings_verdict in Hk. unfold winner_state. rewrite Hst.
      destruct (has_king (explode_board (_board self) er ec) "WK"),
               (has_king (explode_board (_board self) er ec) "BK");
        try discriminate Hk; auto.
    + left. simpl. split; [assumption|].
      unfold kings_verdict in Hk. apply orb_false_iff in Hk.
      destruct Hk as [-> ->]. reflexivity.
Qed.

Lemma reachable_turn (self : ChessVar) :
  reachable self -> _turn self = "WHITE" \/ _turn self = "BLACK".
Proof.
  induction 1 as [|self s e Hr IH]; [left; reflexivity|].
  rewrite make_move_turn_eq by (apply reachable_wf; assumption).
  destruct (snd (make_move s e self)) as [[|]|x]; try assumption.
  unfold other_turn. destruct IH as [-> | ->]; [right|left]; reflexivity.
Qed.

(** In every position a game can reach, the game state and the kings on
    the board agree: "WHITE_WON" goes with a white king and no black
    king, "BLACK_WON" with a black king and no white king, and
    "UNFINISHED" with both kings or (after a rejected capture that
    removed both) with none.  The game state is one of these three
    strings and the turn is "WHITE" or "BLACK". *)
Theorem reachable_state_matches_kings (self : ChessVar) :
  reachable self ->
  state_matches_kings self /\
  (_turn self = "WHITE" \/ _turn self = "BLACK").
Proof.
  intros Hr. split; [|apply reachable_turn; assumption].
  induction Hr as [|self s e Hr IH].
  - left. split; reflexivity.
  - apply make_move_state_matches; [apply reachable_wf|]; assumption.
Qed.

Lemma reachable_state_matches_kings_witness :
  state_matches_kings (fst (make_move "d5" "e7" knight_raid)).
Proof.
  apply (reachable_state_matches_kings (fst (make_move "d5" "e7" knight_raid))).
  apply reach_move. unfold knight_raid, after, knight_raid_moves.
  apply play_reachable. apply reach_init.
Defined.

(** A capture that [make_move] accepts leaves at least one king on the
    board, and leaves the game state "WHITE_WON" when only the white king
    is left, "BLACK_WON" when only the black king is left, and unchanged
    when both are. *)
Theorem capture_sets_winner (self : ChessVar) (s e : string) (sr sc er ec : Z) :
  wf_board (_board self) ->
  names s sr sc -> names e er ec ->
  cell (_board self) er ec <> "00" ->
  snd (make_move s e self) = Ret true ->
  let b' := _board (fst (make_move s e self)) in
  (has_king b' "WK" = true \/ has_king b' "BK" = true) /\
  _game_state (fst (make_move s e self))
  = match has_king b' "WK", has_king b' "BK" with
    | true, false => "WHITE_WON"
    | false, true => "BLACK_WON"
    | _, _ => _game_state self
    end.
Proof.
  intros Hwf Hs He Hls Hret.
  pose proof (names_on_board _ _ _ Hs) as Hons.
  pose proof (names_on_board _ _ _ He) as Hone.
  destruct (String.eqb_spec (_game_state self) "UNFINISHED") as [Hst|Hst].
  2:{ rewrite make_move_finished in Hret by assumption. discriminate. }
  rewrite (make_move_named s e self sr sc er ec) in * by assumption.
  unfold move_outcome in *.
  destruct (validate_move self _ sr sc _ er ec) as [v|x] eqn:Hv; [|discriminate].
  destruct (truthy v) eqn:Ht; [|discriminate].
  pose proof (is_empty_false _ Hls) as Hne. rewrite Hne in *. cbn [negb] in *.
  cbv zeta in Hret.
  pose proof (wf_explode_board _ er ec Hwf Hone) as Hwf1.
  destruct (kings_verdict (explode_board (_board self) er ec)) eqn:Hk; [|discriminate].
  cbv zeta. simpl.
  rewrite !has_king_put_empty
    by (try assumption; try discriminate; eapply capture_origin_no_king; eauto).
  unfold kings_verdict in Hk. unfold winner_state.
  destruct (has_king (explode_board (_board self) er ec) "WK"),
           (has_king (explode_board (_board self) er ec) "BK");
    try discriminate Hk; auto.
Qed.

(** Nd5xe7 in [knight_raid] removes the black king only. *)
Lemma capture_sets_winner_witness :
  _game_state (fst (make_move "d5" "e7" knight_raid)) = "WHITE_WON".
Proof.
  destruct (capture_sets_winner knight_raid "d5" "e7" 3 4 4 6) as [_ H].
  - split; [reflexivity|vm_compute; repeat constructor].
  - exists "d"%char, "5"%char, EmptyString. vm_compute. repeat split; discriminate.
  - exists "e"%char, "7"%char, EmptyString. vm_compute. repeat split; discriminate.
  - vm_compute. discriminate.
  - vm_compute. reflexivity.
  - rewrite H. vm_compute. reflexivity.
Defined.

(** Once neither king is on the board (the position a rejected double
    capture leaves), no call brings one back, no call changes the game
    state, and no capture is ever accepted: a call can only return True
    for a move onto a square that holds '00'. *)
Theorem no_kings_no_capture (self : ChessVar) (s e : string) :
  wf_board (_board self) ->
  has_king (_board self) "WK" = false ->
  has_king (_board self) "BK" = false ->
  has_king (_board (fst (make_move s e self))) "WK" = false /\
  has_king (_board (fst (make_move s e self))) "BK" = false /\
  _game_state (fst (make_move s e self)) = _game_state self /\
  (snd (make_move s e self) = Ret true ->
   forall er ec, names e er ec -> cell (_board self) er ec = "00").
Proof.
  intros Hwf Hw Hb.
  assert (Hboom : forall er ec k, on_board er ec -> k = "WK" \/ k = "BK" ->
            has_king (explode_board (_board self) er ec) k = false).
  { intros er ec k Hon Hk. apply not_true_is_false. intros H.
    apply has_king_iff in H; [|apply wf_explode_board; assumption].
    apply king_on_explode in H; try assumption; [|apply king_not_00; assumption].
    apply has_king_iff in H; [|assumption].
    destruct Hk as [-> | ->]; congruence. }
  destruct (make_move_cases s e self Hwf) as [_|x _|sr sc er ec Hs He Hst];
    try (repeat split; solve [assumption|intros H; discriminate H]).
  pose proof (names_on_board _ _ _ Hs) as Hons.
  pose proof (names_on_board _ _ _ He) as Hone.
  unfold move_outcome.
  destruct (validate_move self _ sr sc _ er ec) as [v|x] eqn:Hv;
    [|repeat split; solve [assumption|intros H; discriminate H]].
  destruct (truthy v) eqn:Ht;
    [|repeat split; solve [assumption|intros H; discriminate H]].
  destruct (validate_move_truthy _ _ _ _ _ _ _ _ Hv Ht) as [Hmp Hne].
  destruct (is_empty (cell (_board self) er ec)) eqn:Hls; cbn [negb]; cbv zeta.
  - apply String.eqb_eq in Hls. simpl.
    rewrite !has_king_plain_move by (try assumption; discriminate).
    repeat split; try assumption.
    intros _ er' ec' He'. destruct (names_fun _ _ _ _ _ He He') as [<- <-]. assumption.
  - unfold kings_verdict.
    rewrite (Hboom er ec "WK"), (Hboom er ec "BK") by (try assumption; auto).
    simpl. rewrite (Hboom er ec "WK"), (Hboom er ec "BK") by (try assumption; auto).
    repeat split. intros H; discriminate H.
Qed.

(** After the rejected d4xe5 of [kings_meet] the kings are gone; White
    then plays e4-e5 and the game goes on without kings. *)
Lemma no_kings_no_capture_witness :
  _game_state (fst (make_move "e4" "e5" (fst (make_move "d4" "e5" kings_meet))))
  = "UNFINISHED" /\
  has_king (_board (fst (make_move "e4" "e5" (fst (make_move "d4" "e5" kings_meet))))) "WK"
  = false.
Proof.
  destruct (no_kings_no_capture (fst (make_move "d4" "e5" kings_meet)) "e4" "e5")
    as (Hw & _ & Hs & _).
  - split; [reflexivity|vm_compute; repeat constructor].
  - vm_compute. reflexivity.
  - vm_compute. reflexivity.
  - split; [rewrite Hs; vm_compute; reflexivity|exact Hw].
Defined.

(** ** Sequences of calls *)

Lemma other_turn_twice (t : string) :
  t = "WHITE" \/ t = "BLACK" -> other_turn (other_turn t) = t.
Proof. intros [-> | ->]; reflexivity. Qed.

(** Over a sequence of calls none of which raises, every call is
    answered, and the turn at the end is the turn at the start when an
    even number of calls returned True, and the other side's turn when
    an odd number did. *)
Theorem play_turn_parity (moves : list (string * string)) (self self' : ChessVar)
    (bs : list bool) :
  wf_board (_board self) ->
  _turn self = "WHITE" \/ _turn self = "BLACK" ->
  play moves self = (self', Ret bs) ->
  List.length bs = List.length moves /\
  _turn self' = if Nat.even (successes bs) then _turn self
                else other_turn (_turn self).
Proof.
  revert self self' bs.
  induction moves as [|[s e] rest IH]; intros self self' bs Hwf Hturn Hplay.
  - simpl in Hplay. injection Hplay as <- <-. split; reflexivity.
  - simpl in Hplay.
    pose proof (make_move_turn_eq self s e Hwf) as Ht.
    pose proof (make_move_wf s e self Hwf) as Hwf1.
    destruct (make_move s e self) as [self1 [b|x]]; [|discriminate Hplay].
    destruct (play rest self1) as [self2 [bs'|x]] eqn:Hrest; [|discriminate Hplay].
    injection Hplay as <- <-. simpl in Ht, Hwf1.
    assert (Hturn1 : _turn self1 = "WHITE" \/ _turn self1 = "BLACK").
    { rewrite Ht. destruct b; [|assumption].
      unfold other_turn. destruct Hturn as [-> | ->]; [right|left]; reflexivity. }
    destruct (IH self1 self2 bs' Hwf1 Hturn1 Hrest) as [Hlen Hpar].
    split; [simpl; rewrite Hlen; reflexivity|].
    rewrite Hpar, Ht. unfold successes in *.
    destruct b; simpl filter; [|reflexivity].
    simpl List.length. rewrite Nat.even_succ, <- Nat.negb_even.
    destruct (Nat.even _); simpl; [reflexivity|].
    apply other_turn_twice. assumption.
Qed.

Lemma play_turn_parity_witness :
  _turn kings_meet = "WHITE".
Proof.
  destruct (play kings_meet_moves init) as [g [bs|x]] eqn:Hplay.
  - destruct (play_turn_parity kings_meet_moves init g bs) as [_ H].
    + split; [reflexivity|vm_compute; repeat constructor].
    + left; reflexivity.
    + exact Hplay.
    + unfold kings_meet, after. rewrite Hplay. simpl fst. rewrite H.
      vm_compute in Hplay. injection Hplay as _ <-. reflexivity.
  - vm_compute in Hplay. discriminate Hplay.
Defined.

(** ** [check_king] *)

(** On an 8x8 board [check_king] returns True exactly when some square
    holds "WK" or "BK".  It never changes the board or the turn.  It
    sets the game state to "WHITE_WON" when a square holds "WK" and none
    holds "BK", to "BLACK_WON" in the opposite case, and leaves it alone
    when both or neither are found. *)
Theorem check_king_verdict (self : ChessVar) :
  wf_board (_board self) ->
  let checked := check_king self_board self in
  (snd checked = Ret true <->
   king_on (_board self) "WK" \/ king_on (_board self) "BK") /\
  (snd checked = Ret true \/ snd checked = Ret false) /\
  _board (fst checked) = _board self /\
  _turn (fst checked) = _turn self /\
  (king_on (_board self) "WK" -> ~ king_on (_board self) "BK" ->
   _game_state (fst checked) = "WHITE_WON") /\
  (king_on (_board self) "BK" -> ~ king_on (_board self) "WK" ->
   _game_state (fst checked) = "BLACK_WON") /\
  ((king_on (_board self) "WK" <-> king_on (_board self) "BK") ->
   _game_state (fst checked) = _game_state self).
Proof.
  intros Hwf checked. subst checked. rewrite check_king_eq. simpl.
  unfold kings_verdict, winner_state.
  rewrite <- !(has_king_iff (_board self)) by assumption.
  destruct (has_king (_board self) "WK"), (has_king (_board self) "BK"); simpl;
    repeat split; auto; try tauto; try discriminate;
    try (intros H; exfalso; solve [apply H; reflexivity
                                  |destruct H as [H|H]; discriminate H
                                  |destruct H as [H1 H2]; first [discriminate (H1 eq_refl)
                                                               |discriminate (H2 eq_refl)]]).
Qed.

(** In the starting position the white king on e1 is found. *)
Lemma check_king_verdict_witness :
  snd (check_king self_board init) = Ret true /\
  _game_state (fst (check_king self_board init)) = "UNFINISHED".
Proof.
  destruct (check_king_verdict init) as (Hiff & _ & _ & _ & _ & _ & Hsame).
  - split; [reflexivity|vm_compute; repeat constructor].
  - split.
    + apply Hiff. left. exists 4, 0. split; [unfold on_board; lia|reflexivity].
    + rewrite Hsame; [reflexivity|]. split; intros _.
      * exists 4, 7. split; [unfold on_board; lia|reflexivity].
      * exists 4, 0. split; [unfold on_board; lia|reflexivity].
Defined.

(** ** When a call succeeds, and what it reads of a token *)

(** For two tokens that name squares of an 8x8 board, [make_move]
    returns True exactly when the game is unfinished, [validate_move]
    gives a truthy verdict for the two squares, and either the landing
    square holds '00' or a king is left after the explosion around it. *)
Theorem make_move_true_iff (self : ChessVar) (s e : string) (sr sc er ec : Z) :
  wf_board (_board self) ->
  names s sr sc -> names e er ec ->
  snd (make_move s e self) = Ret true <->
  _game_state self = "UNFINISHED" /\
  (exists v, validate_move self (cell (_board self) sr sc) sr sc
                           (cell (_board self) er ec) er ec = Ret v /\
             truthy v = true) /\
  (cell (_board self) er ec = "00" \/
   king_on (explode_board (_board self) er ec) "WK" \/
   king_on (explode_board (_board self) er ec) "BK").
Proof.
  intros Hwf Hs He.
  pose proof (names_on_board _ _ _ He) as Hone.
  pose proof (wf_explode_board _ er ec Hwf Hone) as Hwf1.
  rewrite <- !(has_king_iff (explode_board (_board self) er ec)) by assumption.
  destruct (String.eqb_spec (_game_state self) "UNFINISHED") as [Hst|Hst].
  2:{ rewrite make_move_finished by assumption. simpl. split; [discriminate|].
      intros [H _]. contradiction. }
  rewrite (make_move_named s e self sr sc er ec) by assumption.
  unfold move_outcome, is_empty.
  destruct (validate_move self _ sr sc _ er ec) as [v|x].
  - destruct (truthy v) eqn:Ht.
    + destruct (String.eqb_spec (cell (_board self) er ec) "00") as [Hls|Hls];
        cbn [negb]; cbv zeta.
      * simpl. split; [intros _|reflexivity]. repeat split; eauto.
      * unfold kings_verdict.
        destruct (has_king (explode_board (_board self) er ec) "WK"),
                 (has_king (explode_board (_board self) er ec) "BK"); simpl;
          (split; [intros H; try discriminate H; repeat split; eauto
                  |intros (_ & _ & [H|[H|H]]); try reflexivity;
                   try contradiction; discriminate H]).
    + simpl. split; [discriminate|].
      intros (_ & (v' & Hv' & Ht') & _). injection Hv' as <-. congruence.
  - simpl. split; [discriminate|].
    intros (_ & (v' & Hv' & _) & _). discriminate Hv'.
Qed.

Lemma make_move_true_iff_witness :
  snd (make_move "b1" "c3" init) = Ret true.
Proof.
  apply (make_move_true_iff init "b1" "c3" 1 0 2 2).
  - split; [reflexivity|vm_compute; repeat constructor].
  - exists "b"%char, "1"%char, EmptyString. vm_compute. repeat split; discriminate.
  - exists "c"%char, "3"%char, EmptyString. vm_compute. repeat split; discriminate.
  - split; [reflexivity|]. split.
    + exists (Some true). vm_compute. split; reflexivity.
    + left. vm_compute. reflexivity.
Defined.

(** [make_move] reads the first two characters of each token and nothing
    else: whatever follows them changes neither the result nor the
    effect of the call ("a10" is taken for "a1"). *)
Theorem make_move_ignores_rest (self : ChessVar) (a d a' d' : ascii)
    (rest rest' : string) :
  make_move (String a (String d rest)) (String a' (String d' rest')) self
  = make_move (String a (String d EmptyString))
              (String a' (String d' EmptyString)) self.
Proof.
  unfold make_move. rewrite !str_getitem_0, !str_getitem_1. reflexivity.
Qed.
